(** * MovieMangment: the movie CRUD service of [movie.js]

    [movie.js] holds two variants of one Express application (called A and B
    below, in the order of the file).  Each registers, on one Mongoose model
    [Movie], a listing route with query filters, a create and an update route
    guarded by express-validator chains, and a delete route; variant B adds a
    catch-all 404 middleware and a central error middleware.

    The embedding follows the file: the validator chains are written with the
    same builders ([body], [notEmpty], [withMessage], ...), each route handler
    is one function over the request and the state of the collection, and the
    two variants live in two modules.  What the file takes from its libraries
    and from the JavaScript engine is modelled as far as the handlers use it:
    - payload fields are JSON scalars (or absent); numbers are integers.  A
      field holding an array or an object is outside the model, and so are a
      payload's [_id] and update operators: the statements on what is stored
      ask that the payload holds schema paths only ([only_schema_paths]);
    - strings are sequences of 8-bit characters ([string]), so a text holds
      no character beyond U+00FF, and no variation selector, which some
      releases of validator.js leave out of the length [isLength] measures;
    - a query parameter is given once, as a text;
    - [parseInt] gives the JavaScript Number: the integer read, rounded to
      the nearest double ([JS.nearest]);
    - the URL grammar of [isURL], the regular-expression engine behind
      [new RegExp(title, 'i')], [decodeURIComponent] on a route parameter,
      the status swagger-ui-express answers with, the ObjectId cast of
      Mongoose and the text of its cast errors are an interface ([Platform]),
      with the laws the statements need; [Sample] is one platform to run on;
    - [express.json()], the first layer of both variants, is the [Entity] a
      request comes with: read, or refused with a status and an error;
    - the router takes a request by path first, decodes the parameters, and
      looks at the method last; the answer Express gives to OPTIONS on its
      own is not modelled;
    - the request log ([log.txt]) and the console are in [Logging]; what the
      framework itself prints for an error nobody handles is not recorded. *)

From Stdlib Require Import Ascii String ZArith Lia.
From stdpp Require Import gmap strings list pretty.

Local Open Scope string_scope.
Local Open Scope Z_scope.

(** ** JavaScript values and primitives *)

Module JS.

(** A JSON scalar, as [express.json()] leaves it in [req.body]. *)
Inductive scalar :=
| Null
| Bool (b : bool)
| Number (n : Z)
| Str (s : string).

(** [String(v)] on a scalar. *)
Definition String_ (v : scalar) : string :=
  match v with
  | Null => "null"
  | Bool true => "true"
  | Bool false => "false"
  | Number n => pretty n
  | Str s => s
  end.

(** A query parameter under [if (x)]: its text when it is truthy, that is
    present and not the empty string. *)
Definition truthy (o : option string) : option string :=
  match o with
  | Some s => if String.eqb s "" then None else Some s
  | None => None
  end.

Definition is_digit (c : ascii) : bool :=
  let n := Z.of_nat (nat_of_ascii c) in (48 <=? n) && (n <=? 57).

Definition digit_value (c : ascii) : Z := Z.of_nat (nat_of_ascii c) - 48.

Fixpoint all_digits (s : string) : bool :=
  match s with
  | EmptyString => true
  | String c r => is_digit c && all_digits r
  end.

(** Value of a digit string read left to right, from the accumulator [acc]. *)
Fixpoint digits_value (acc : Z) (s : string) : Z :=
  match s with
  | EmptyString => acc
  | String c r => digits_value (10 * acc + digit_value c) r
  end.

(** ASCII lower case, for the [i] flag and for route matching. *)
Definition lower (c : ascii) : ascii :=
  let n := nat_of_ascii c in
  if ((65 <=? n) && (n <=? 90))%nat then ascii_of_nat (n + 32) else c.

Fixpoint toLowerCase (s : string) : string :=
  match s with
  | EmptyString => EmptyString
  | String c r => String (lower c) (toLowerCase r)
  end.

(** The letters a to z, in either case. *)
Definition is_letter (c : ascii) : bool :=
  let n := nat_of_ascii (lower c) in ((97 <=? n) && (n <=? 122))%nat.

(** White space skipped by [parseInt] (within the 8-bit characters). *)
Definition is_space (c : ascii) : bool :=
  let n := nat_of_ascii c in
  ((9 <=? n) && (n <=? 13) || (n =? 32) || (n =? 160))%nat.

Fixpoint skip_space (s : string) : string :=
  match s with
  | String c r => if is_space c then skip_space r else s
  | EmptyString => s
  end.

Definition hex_digit_value (c : ascii) : option Z :=
  let n := Z.of_nat (nat_of_ascii c) in
  if (48 <=? n) && (n <=? 57) then Some (n - 48)
  else if (97 <=? n) && (n <=? 102) then Some (n - 87)
  else if (65 <=? n) && (n <=? 70) then Some (n - 55)
  else None.

Definition radix_digit (radix : Z) (c : ascii) : option Z :=
  match hex_digit_value c with
  | Some d => if d <? radix then Some d else None
  | None => None
  end.

(** The longest prefix of digits in [radix]: its value, [None] when empty. *)
Fixpoint prefix_value (radix : Z) (acc : option Z) (s : string) : option Z :=
  match s with
  | EmptyString => acc
  | String c r =>
      match radix_digit radix c with
      | Some d => prefix_value radix (Some (radix * default 0 acc + d)) r
      | None => acc
      end
  end.

(** A Number without a fraction, as [parseInt] yields one: an integer that a
    double holds, or an infinity. *)
Inductive integral :=
| Finite (n : Z)
| Infinity (negative : bool).

(** The Number nearest to the integer [n]: [n] itself below 2^53 in
    magnitude; beyond, its 53 leading bits rounded to nearest, ties to even;
    an infinity from 2^1024 on. *)
Definition nearest (n : Z) : integral :=
  let a := Z.abs n in
  let e := Z.log2 a - 52 in
  if e <=? 0 then Finite n
  else
    let q := a / 2 ^ e in
    let r := a mod 2 ^ e in
    let half := 2 ^ (e - 1) in
    let q' := if (half <? r) || ((half =? r) && Z.odd q) then q + 1 else q in
    if 2 ^ 1024 <=? q' * 2 ^ e then Infinity (n <? 0)
    else Finite (Z.sgn n * (q' * 2 ^ e)).

(** [parseInt(s)] with no radix argument; [None] is [NaN].  The integer read
    is returned as a Number, rounded as V8 rounds it (the language lets an
    engine read the decimal digits after the twentieth as zeros). *)
Definition parseInt (s : string) : option integral :=
  let s1 := skip_space s in
  let '(sign, s2) :=
    match s1 with
    | String "-" r => (-1, r)
    | String "+" r => (1, r)
    | _ => (1, s1)
    end in
  let '(radix, s3) :=
    match s2 with
    | String "0" (String "x" r) | String "0" (String "X" r) => (16, r)
    | _ => (10, s2)
    end in
  (λ n, nearest (sign * n)) <$> prefix_value radix None s3.

(** The characters with a meaning of their own in a regular expression. *)
Definition special : list ascii :=
  ["\"; "^"; "$"; "."; "|"; "?"; "*"; "+"; "("; ")"; "["; "]"; "{"; "}"]%char.

(** A pattern of plain characters: ASCII, none of them special. *)
Fixpoint plain (p : string) : bool :=
  match p with
  | EmptyString => true
  | String c r =>
      (nat_of_ascii c <? 128)%nat && negb (bool_decide (c ∈ special)) && plain r
  end.

(** Case-insensitive substring test: [needle] occurs in [s] up to the case of
    the letters a to z. *)
Fixpoint prefix_i (needle s : string) : bool :=
  match needle, s with
  | EmptyString, _ => true
  | String a n', String c s' => Ascii.eqb (lower a) (lower c) && prefix_i n' s'
  | String _ _, EmptyString => false
  end.

Fixpoint includes_i (needle s : string) : bool :=
  prefix_i needle s
  || match s with
     | String _ s' => includes_i needle s'
     | EmptyString => false
     end.

(** A text with a percent sign, the escape character of a URL. *)
Fixpoint has_percent (s : string) : bool :=
  match s with
  | EmptyString => false
  | String c r => Ascii.eqb c "%" || has_percent r
  end.

End JS.

(** ** express-validator: chains over [req.body] *)

Module Validator.

(** [req.body] after [express.json()]: field name to scalar.  A field that
    holds an array or an object is outside the model. *)
Abbreviation payload := (gmap string JS.scalar).

(** The library's conversion of a field to the string its validators see:
    a missing or [null] field is the empty string. *)
Definition toString (v : option JS.scalar) : string :=
  match v with
  | None | Some JS.Null => ""
  | Some v => JS.String_ v
  end.

Inductive validator :=
| NotEmpty
| IsLength (min : nat)
| IsInt (min max : Z)
| IsIn (values : list string)
| IsURL.

Record step := Step { step_validator : validator; step_message : string }.

Record chain := Chain {
  chain_path : string;
  chain_optional : bool;
  chain_steps : list step
}.

(** The builders of the chain API. *)
Definition body (path : string) : chain := Chain path false [].

Definition add (v : validator) (c : chain) : chain :=
  Chain (chain_path c) (chain_optional c) (chain_steps c ++ [Step v "Invalid value"]).

Definition notEmpty := add NotEmpty.
Definition isLength (min : nat) := add (IsLength min).
Definition isInt (min max : Z) := add (IsInt min max).
Definition isIn (values : list string) := add (IsIn values).
Definition isURL := add IsURL.

Definition optional (c : chain) : chain :=
  Chain (chain_path c) true (chain_steps c).

Fixpoint set_last_message (m : string) (l : list step) : list step :=
  match l with
  | [] => []
  | [s] => [Step (step_validator s) m]
  | s :: r => s :: set_last_message m r
  end.

Definition withMessage (m : string) (c : chain) : chain :=
  Chain (chain_path c) (chain_optional c) (set_last_message m (chain_steps c)).

(** [/^[-+]?[0-9]+$/], the default pattern of [isInt]. *)
Definition int_pattern (s : string) : bool :=
  let ds := match s with
            | String "-" r | String "+" r => r
            | _ => s
            end in
  negb (String.eqb ds "") && JS.all_digits ds.

(** [Number(s)] for a string matching [int_pattern]. *)
Definition int_value (s : string) : Z :=
  match s with
  | String "-" r => - JS.digits_value 0 r
  | String "+" r => JS.digits_value 0 r
  | _ => JS.digits_value 0 s
  end.

Record ValidationError := FieldError {
  err_path : string;
  err_msg : string;
  err_value : option JS.scalar
}.

Section Run.
(** The URL test of validator.js with its default options. *)
Variable isURL_test : string → bool.

(** A validator on the text of a field.  [notEmpty] is [!isEmpty], the text
    having a character; [isLength] counts the characters of the text (the
    releases of validator.js that leave variation selectors out of the count
    agree with that on the texts of this model, which hold none); [isIn] is
    membership in the array; [isInt] is its pattern and the two bounds on the
    number read. *)
Definition check (v : validator) (s : string) : bool :=
  match v with
  | NotEmpty => negb (String.eqb s "")
  | IsLength min => (min <=? String.length s)%nat
  | IsInt min max => int_pattern s && (min <=? int_value s) && (int_value s <=? max)
  | IsIn values => bool_decide (s ∈ values)
  | IsURL => isURL_test s
  end.

(** Every step of a chain runs (no [bail]); a failing step reports its
    message.  An optional chain is skipped for a missing field. *)
Definition run_step (path : string) (v : option JS.scalar) (s : step)
  : list ValidationError :=
  if check (step_validator s) (toString v) then []
  else [FieldError path (step_message s) v].

Definition run_chain (b : payload) (c : chain) : list ValidationError :=
  let v := b !! chain_path c in
  if chain_optional c && bool_decide (v = None) then []
  else flat_map (run_step (chain_path c) v) (chain_steps c).

(** [validationResult(req).array()] *)
Definition validationResult (cs : list chain) (b : payload)
  : list ValidationError :=
  flat_map (run_chain b) cs.
End Run.

End Validator.

(** ** What the application takes from its platform *)

(** A JavaScript [Error], as far as the handlers read it. *)
Record Error := mkError { message : string; stack : string }.

(** What a call that may throw hands back. *)
Inductive Result (A : Type) :=
| Ok (a : A)
| Throw (e : Error).
Arguments Ok {A} a.
Arguments Throw {A} e.

(** The parts of validator.js, of the JavaScript engine and of Mongoose whose
    inner working the handlers do not depend on. *)
Class Platform := {
  (** [isURL] of validator.js with its default options *)
  isURL_test : string → bool;
  (** regular-expression objects; [RegExp_new_i p] is [new RegExp(p, 'i')],
      which throws a SyntaxError on an ill-formed pattern; [RegExp_test] is
      the unanchored search the database runs on a string field *)
  RegExp : Type;
  RegExp_new_i : string → Result RegExp;
  RegExp_test : RegExp → string → bool;
  (** a pattern of plain characters is well formed, and searching it is
      looking for the text, the letters a to z compared without regard to
      case *)
  RegExp_plain : ∀ p, JS.plain p = true →
    ∃ re, RegExp_new_i p = Ok re ∧ ∀ s, RegExp_test re s = JS.includes_i p s;
  (** [decodeURIComponent], which throws a URIError on a malformed escape;
      a text without a percent sign is left as it is *)
  decodeURIComponent : string → Result string;
  decodeURIComponent_plain : ∀ s, JS.has_percent s = false → decodeURIComponent s = Ok s;
  (** the status of the answer of swagger-ui-express to a request below its
      mount path, from the method and the path *)
  swaggerUi_status : string → string → Z;
  (** Mongoose's cast of a string to an ObjectId (ids are kept as strings in
      canonical form), throwing a CastError on a malformed one *)
  castObjectId : string → Result string;
  (** the CastError of a schema path, and the driver's duplicate-key error *)
  castError : string → Error;
  duplicateKey : Error
}.

(** ** Mongoose: the [Movie] model and its collection *)

Module Mongoose.

(** [movieSchema]: five paths, none required. *)
Record Movie := mkMovie {
  title : option string;
  director : option string;
  releaseYear : option Z;
  genre : option string;
  image : option string
}.

#[global] Instance Movie_eq_dec : EqDecision Movie.
Proof. solve_decision. Defined.

(** The query object of [Movie.find]: a path is present when the handler set
    it; a present [releaseYear] is a Number or [NaN] ([None]). *)
Record Filter `{Platform} := mkFilter {
  f_title : option RegExp;
  f_releaseYear : option (option JS.integral);
  f_genre : option string
}.

(** The model methods the handlers call. *)
Inductive Call := CallFind | CallSave | CallFindByIdAndUpdate | CallFindByIdAndDelete.

(** The collection, keyed by [_id], and the trace of the calls made on the
    model. *)
Record Db := mkDb {
  docs : gmap string Movie;
  calls : list Call
}.

Definition called (c : Call) (db : Db) : Db :=
  {| docs := docs db; calls := calls db ++ [c] |}.

(** What surrounds one request: the failure the database answers with, if it
    fails ([fault]); the [_id] a new document receives; the calendar year on
    the clock while the request is handled. *)
Record Env := mkEnv {
  fault : option Error;
  newId : string;
  now : Z
}.

Section Model.
Context `{Platform}.

Definition matches (f : Filter) (m : Movie) : bool :=
  match f_title f with
  | None => true
  | Some re => match title m with Some t => RegExp_test re t | None => false end
  end
  && match f_releaseYear f with
     | None => true
     | Some (Some (JS.Finite n)) => bool_decide (releaseYear m = Some n)
     | Some _ => false
     end
  && match f_genre f with
     | None => true
     | Some g => bool_decide (genre m = Some g)
     end.

(** [Movie.find(filter)]: the filter is cast to the schema first ([NaN] is no
    Number), then the collection is searched.  The stored release years are
    integers: an infinity equals none of them. *)
Definition find (env : Env) (f : Filter) (db : Db)
  : Result (list (string * Movie)) * Db :=
  let db := called CallFind db in
  match f_releaseYear f with
  | Some None => (Throw (castError "releaseYear"), db)
  | _ =>
      match fault env with
      | Some e => (Throw e, db)
      | None => (Ok (List.filter (λ d, matches f d.2) (map_to_list (docs db))), db)
      end
  end.

(** Casts of a payload field to a String path and to a Number path.  A string
    is read as a Number through [int_value] when it is a signed digit string
    and is a cast error otherwise: the handlers cast validated payloads only,
    and the other numeric spellings of JavaScript are left out. *)
Definition castString (v : option JS.scalar) : option string :=
  match v with
  | None | Some JS.Null => None
  | Some v => Some (JS.String_ v)
  end.

Definition castNumber (v : option JS.scalar) : Result (option Z) :=
  match v with
  | None | Some JS.Null => Ok None
  | Some (JS.Bool b) => Ok (Some (if b then 1 else 0))
  | Some (JS.Number n) => Ok (Some n)
  | Some (JS.Str s) =>
      if String.eqb s "" then Ok None
      else if Validator.int_pattern s then Ok (Some (Validator.int_value s))
      else Throw (castError "releaseYear")
  end.

(** [new Movie(req.body)]: the document, or the cast error that [save] will
    report.  The five paths of the schema are read; an [_id] in the payload,
    which Mongoose would take for the document, is not. *)
Definition new (b : Validator.payload) : Result Movie :=
  match castNumber (b !! "releaseYear") with
  | Throw e => Throw e
  | Ok y =>
      Ok {| title := castString (b !! "title");
            director := castString (b !! "director");
            releaseYear := y;
            genre := castString (b !! "genre");
            image := castString (b !! "image") |}
  end.

(** [movie.save()] *)
Definition save (env : Env) (m : Result Movie) (db : Db)
  : Result (string * Movie) * Db :=
  let db := called CallSave db in
  match m with
  | Throw e => (Throw e, db)
  | Ok m =>
      match fault env with
      | Some e => (Throw e, db)
      | None =>
          match docs db !! newId env with
          | Some _ => (Throw duplicateKey, db)
          | None => (Ok (newId env, m),
                     {| docs := <[newId env := m]> (docs db); calls := calls db |})
          end
      end
  end.

(** The update document [req.body] applied to a stored movie: the paths the
    body holds are set, the others are kept.  The five paths of the schema
    are read; update operators and an [_id] in the body are not. *)
Definition set_path {A} (v : option JS.scalar) (new old : option A) : option A :=
  match v with
  | Some _ => new
  | None => old
  end.

Definition apply_update (b : Validator.payload) (m : Movie) : Result Movie :=
  match castNumber (b !! "releaseYear") with
  | Throw e => Throw e
  | Ok y =>
      Ok {| title := set_path (b !! "title") (castString (b !! "title")) (title m);
            director := set_path (b !! "director") (castString (b !! "director")) (director m);
            releaseYear := set_path (b !! "releaseYear") y (releaseYear m);
            genre := set_path (b !! "genre") (castString (b !! "genre")) (genre m);
            image := set_path (b !! "image") (castString (b !! "image")) (image m) |}
  end.

(** [Movie.findByIdAndUpdate(id, body, { new: true })]: the updated document,
    or [null] ([None]) when no document has this id. *)
Definition findByIdAndUpdate (env : Env) (id : string) (b : Validator.payload) (db : Db)
  : Result (option (string * Movie)) * Db :=
  let db := called CallFindByIdAndUpdate db in
  match castObjectId id with
  | Throw e => (Throw e, db)
  | Ok oid =>
      match castNumber (b !! "releaseYear") with
      | Throw e => (Throw e, db)
      | Ok _ =>
          match fault env with
          | Some e => (Throw e, db)
          | None =>
              match docs db !! oid with
              | None => (Ok None, db)
              | Some m =>
                  match apply_update b m with
                  | Throw e => (Throw e, db)
                  | Ok m' => (Ok (Some (oid, m')),
                              {| docs := <[oid := m']> (docs db); calls := calls db |})
                  end
              end
          end
      end
  end.

(** [Movie.findByIdAndDelete(id)]: the deleted document, or [null]. *)
Definition findByIdAndDelete (env : Env) (id : string) (db : Db)
  : Result (option (string * Movie)) * Db :=
  let db := called CallFindByIdAndDelete db in
  match castObjectId id with
  | Throw e => (Throw e, db)
  | Ok oid =>
      match fault env with
      | Some e => (Throw e, db)
      | None =>
          match docs db !! oid with
          | None => (Ok None, db)
          | Some m => (Ok (Some (oid, m)),
                       {| docs := delete oid (docs db); calls := calls db |})
          end
      end
  end.

End Model.
End Mongoose.

(** ** Express: requests, responses and the middleware stack *)

Module Express.
Import Mongoose.

(** [req]: the method, the path and the query string of the URL (with its
    question mark, or empty), the parsed query, the route parameters and the
    parsed JSON body.  A query parameter is a text: one that is given twice,
    or with brackets, which the query parser turns into an array or an
    object, is outside the model. *)
Record Request := mkRequest {
  method : string;
  path : string;
  search : string;
  query : gmap string string;
  params : gmap string string;
  body : Validator.payload
}.

(** [req.url] *)
Definition url (req : Request) : string := path req +:+ search req.

Definition with_params (ps : gmap string string) (req : Request) : Request :=
  {| method := method req; path := path req; search := search req;
     query := query req; params := ps; body := body req |}.

Inductive Body :=
| Text (s : string)
| Errors (errors : list Validator.ValidationError)
| Movies (movies : list (string * Movie))
| Document (id : string) (movie : Movie)
| Object (fields : list (string * string))
| Builtin.

Record Response := mkResponse { status : Z; content : Body }.

(** [res.send(text)], [res.json(...)] and their [res.status(n)] forms. *)
Definition send (s : string) : Response := mkResponse 200 (Text s).
Definition json (b : Body) : Response := mkResponse 200 b.
Definition status_send (n : Z) (s : string) : Response := mkResponse n (Text s).
Definition status_json (n : Z) (b : Body) : Response := mkResponse n b.

(** How a handler ends: it answers; it forwards an error with [next(err)]; or
    the promise of an [async] handler is rejected before anything was sent.
    What becomes of a rejected promise is the framework's affair and depends
    on its major version: Express 4 does not look at the promise, so the
    request stays without an answer and the rejection unhandled; Express 5
    forwards the rejection as an error. *)
Inductive Outcome :=
| Reply (r : Response)
| Next (e : Error)
| Rejected (e : Error).

Definition Handler : Type := Env → Request → Db → Outcome * Db.

(** What [express.json()], the first middleware of both variants, makes of
    the entity a request carries: it reads it into [req.body] (an empty
    object when there is none), or it raises an error that holds the status
    of the answer (400 for a text that is no JSON, 413 for an entity too
    large, ...). *)
Inductive Entity :=
| Readable
| Unreadable (status : Z) (err : Error).

(** The segments of a path between slashes. *)
Fixpoint split_slash (cur : string) (s : string) : list string :=
  match s with
  | EmptyString => [String.rev cur]
  | String "/" r => String.rev cur :: split_slash "" r
  | String c r => split_slash (String c cur) r
  end.

(** A path as the router reads it: the leading slash and one optional
    trailing slash carry no segment. *)
Definition segments (p : string) : option (list string) :=
  match split_slash "" p with
  | "" :: l =>
      match reverse l with
      | "" :: l' => Some (reverse l')
      | _ => Some l
      end
  | _ => None
  end.

(** A route path against a request path, segment by segment: text is compared
    without regard to case, a [:name] segment takes any non-empty segment.
    The result lists the parameters with the text they took, as written in
    the path. *)
Fixpoint match_segments (pattern p : list string) : option (list (string * string)) :=
  match pattern, p with
  | [], [] => Some []
  | String ":" name :: pattern', s :: p' =>
      if String.eqb s "" then None
      else cons (name, s) <$> match_segments pattern' p'
  | t :: pattern', s :: p' =>
      if String.eqb (JS.toLowerCase t) (JS.toLowerCase s)
      then match_segments pattern' p' else None
  | _, _ => None
  end.

Definition match_path (pattern p : string) : option (list (string * string)) :=
  match segments pattern, segments p with
  | Some a, Some b => match_segments a b
  | _, _ => None
  end.

(** The mount path of [app.use(path, ...)] takes every path below it. *)
Fixpoint prefix_segments (pattern p : list string) : bool :=
  match pattern, p with
  | [], _ => true
  | t :: pattern', s :: p' =>
      String.eqb (JS.toLowerCase t) (JS.toLowerCase s) && prefix_segments pattern' p'
  | _ :: _, [] => false
  end.

Definition match_mount (pattern p : string) : bool :=
  match segments pattern, segments p with
  | Some a, Some b => prefix_segments a b
  | _, _ => false
  end.

(** A [get] route also serves HEAD. *)
Definition is_method (m : string) (req : Request) : bool :=
  String.eqb (method req) m
  || (String.eqb m "GET" && String.eqb (method req) "HEAD").

(** How a layer of the stack was registered. *)
Inductive Registration :=
| Use                                   (* app.use(handler) *)
| UseAt (mount : string)                (* app.use(path, handler) *)
| Verb (m : string) (pattern : string). (* app.get(path, handler), ... *)

Record Layer := mkLayer { registration : Registration; handle : Handler }.

(** What a layer does with a request: it lets it pass, it takes it (with the
    request as its handler receives it), or matching it raises an error. *)
Inductive Taken :=
| Passes
| Takes (req : Request)
| Fails (err : Error).

(** The framework's own answer when the stack is exhausted. *)
Definition finalhandler : Handler :=
  λ _ _ db, (Reply (mkResponse 404 Builtin), db).

Section Router.
Context `{Platform}.

(** The router percent-decodes the text a parameter took; on a malformed
    escape the error of [decodeURIComponent] is thrown on with a message of
    the router (and the status 400). *)
Definition decode_param (val : string) : Result string :=
  match decodeURIComponent val with
  | Ok s => Ok s
  | Throw e => Throw (mkError ("Failed to decode param '" +:+ val +:+ "'") (stack e))
  end.

Fixpoint decode_params (ps : gmap string string) (bound : list (string * string))
  : Result (gmap string string) :=
  match bound with
  | [] => Ok ps
  | (name, val) :: bound' =>
      match decode_param val with
      | Throw e => Throw e
      | Ok v => decode_params (<[name := v]> ps) bound'
      end
  end.

(** A route is matched on the path first, its parameters are decoded, and
    only then is the method looked at: a parameter that cannot be decoded
    raises its error whatever the method of the request. *)
Definition takes (l : Layer) (req : Request) : Taken :=
  match registration l with
  | Use => Takes req
  | UseAt mount => if match_mount mount (path req) then Takes req else Passes
  | Verb m pattern =>
      match match_path pattern (path req) with
      | None => Passes
      | Some bound =>
          match decode_params ∅ bound with
          | Throw e => Fails e
          | Ok ps => if is_method m req then Takes (with_params ps req) else Passes
          end
      end
  end.

(** The first layer that takes the request handles it.  Once matching a
    route has raised an error, the layers that follow are passed over (they
    are routes or middleware of fewer than four arguments) and the error is
    forwarded. *)
Fixpoint dispatch (stack : list Layer) : Handler :=
  λ env req db,
  match stack with
  | [] => finalhandler env req db
  | l :: stack' =>
      match takes l req with
      | Takes req' => handle l env req' db
      | Passes => dispatch stack' env req db
      | Fails e => (Next e, db)
      end
  end.

End Router.

End Express.

(** Method chaining of the validator API: [c .> f] is [c.f]. *)
Notation "c .> f" := (f c) (at level 45, left associativity, only parsing).

(** ** Variant A (the first application of [movie.js]) *)

Module VariantA.
Import Mongoose Express Validator.

Section App.
Context `{Platform}.

(** The calendar year [new Date().getFullYear()] yields while the routes are
    registered, when the process starts. *)
Variable bootYear : Z.

(** [swaggerUi.serve, swaggerUi.setup(swaggerSpec)]: every request below the
    mount path is answered with a page, a file or a redirection of the
    library. *)
Definition api_docs : Handler :=
  λ _ req db, (Reply (mkResponse (swaggerUi_status (method req) (path req)) Builtin), db).

(** [app.get('/', ...)] *)
Definition home : Handler :=
  λ _ _ db, (Reply (send "Welcome to the Movies Management API!"), db).

(** [app.get('/api/movies', ...)]: the filter built from [req.query]. *)
Definition build_filter (q : gmap string string) : Result Filter :=
  let title := q !! "title" in
  let releaseYear := q !! "releaseYear" in
  let genre := q !! "genre" in
  match JS.truthy title with
  | Some t =>
      match RegExp_new_i t with
      | Throw e => Throw e
      | Ok re => Ok {| f_title := Some re;
                       f_releaseYear := JS.parseInt <$> JS.truthy releaseYear;
                       f_genre := JS.truthy genre |}
      end
  | None => Ok {| f_title := None;
                  f_releaseYear := JS.parseInt <$> JS.truthy releaseYear;
                  f_genre := JS.truthy genre |}
  end.

Definition get_api_movies : Handler :=
  λ env req db,
  match build_filter (query req) with
  | Throw _ => (Reply (status_json 500 (Object [("error", "Server Error")])), db)
  | Ok filter =>
      match find env filter db with
      | (Ok movies, db') => (Reply (json (Movies movies)), db')
      | (Throw _, db') =>
          (Reply (status_json 500 (Object [("error", "Server Error")])), db')
      end
  end.

(** The validator array of [app.post('/api/movies', ...)]. *)
Definition post_validators : list chain := [
  body "title"
    .> notEmpty .> withMessage "Title is required"
    .> isLength 1 .> withMessage "Title must be at least 1 character";
  body "director"
    .> notEmpty .> withMessage "Director is required";
  body "releaseYear"
    .> notEmpty .> withMessage "Release year is required"
    .> isInt 1888 bootYear
    .> withMessage "Release year must be valid";
  body "genre"
    .> notEmpty .> withMessage "Genre is required"
    .> isIn ["Action"; "Comedy"; "Drama"; "Horror"; "Sci-Fi"; "Romance"; "Other"]
    .> withMessage "Invalid genre";
  body "image"
    .> optional
    .> isURL .> withMessage "Image must be a valid URL"
].

(** [app.post('/api/movies', ...)]: nothing catches what [save] throws. *)
Definition post_api_movies : Handler :=
  λ env req db,
  match validationResult isURL_test post_validators (Express.body req) with
  | [] =>
      match save env (new (Express.body req)) db with
      | (Ok (id, movie), db') => (Reply (status_json 201 (Document id movie)), db')
      | (Throw e, db') => (Rejected e, db')
      end
  | errors => (Reply (status_json 400 (Errors errors)), db)
  end.

(** The validator array of [app.put('/api/movies/:id', ...)]. *)
Definition put_validators : list chain := [
  body "title"
    .> notEmpty .> withMessage "Title is required"
    .> isLength 1 .> withMessage "Title must be at least 1 character";
  body "director"
    .> notEmpty .> withMessage "Director is required";
  body "releaseYear"
    .> notEmpty .> withMessage "Release year is required"
    .> isInt 1888 bootYear
    .> withMessage "Release year must be valid";
  body "genre"
    .> notEmpty .> withMessage "Genre is required"
    .> isIn ["Action"; "Comedy"; "Drama"; "Horror"; "Sci-Fi"; "Romance"; "Other"]
    .> withMessage "Invalid genre";
  body "image"
    .> optional
    .> isURL .> withMessage "Image must be a valid URL"
].

(** [app.put('/api/movies/:id', ...)] *)
Definition put_api_movies_id : Handler :=
  λ env req db,
  match validationResult isURL_test put_validators (Express.body req) with
  | [] =>
      match findByIdAndUpdate env (params req !!! "id") (Express.body req) db with
      | (Ok None, db') =>
          (Reply (status_json 404 (Object [("error", "Movie not found")])), db')
      | (Ok (Some (i, movie)), db') => (Reply (json (Document i movie)), db')
      | (Throw _, db') =>
          (Reply (status_json 500 (Object [("error", "Server error")])), db')
      end
  | errors => (Reply (status_json 400 (Errors errors)), db)
  end.

(** [app.delete('/api/movies/:id', ...)] *)
Definition delete_api_movies_id : Handler :=
  λ env req db,
  match findByIdAndDelete env (params req !!! "id") db with
  | (Ok None, db') => (Reply (status_send 404 "Movie not found"), db')
  | (Ok (Some _), db') => (Reply (send "Movie deleted"), db')
  | (Throw _, db') => (Reply (status_send 400 "Invalid ID"), db')
  end.

(** The layers in the order they are registered. *)
Definition stack : list Layer := [
  mkLayer (UseAt "/api-docs") api_docs;
  mkLayer (Verb "GET" "/") home;
  mkLayer (Verb "GET" "/api/movies") get_api_movies;
  mkLayer (Verb "POST" "/api/movies") post_api_movies;
  mkLayer (Verb "PUT" "/api/movies/:id") put_api_movies_id;
  mkLayer (Verb "DELETE" "/api/movies/:id") delete_api_movies_id
].

(** No handler forwards an error and no error middleware is registered: the
    one error that is forwarded is the router's, on a parameter it cannot
    decode, and the framework answers it with a page of its own under the
    status of the error, 400. *)
Definition on_error (r : Outcome * Db) : Outcome * Db :=
  match r with
  | (Next _, db') => (Reply (mkResponse 400 Builtin), db')
  | r => r
  end.

(** The application, for a request whose entity [express.json()] has read. *)
Definition app : Handler :=
  λ env req db, on_error (dispatch stack env req db).

(** The application with [express.json()] before it: an entity it cannot
    read is answered by the framework, under the status of the error, and
    nothing else runs. *)
Definition listen (entity : Entity) : Handler :=
  λ env req db,
  match entity with
  | Readable => app env req db
  | Unreadable status _ => (Reply (mkResponse status Builtin), db)
  end.

End App.
End VariantA.

(** ** Variant B (the second application of [movie.js]) *)

Module VariantB.
Import Mongoose Express Validator.

Section App.
Context `{Platform}.

(** The calendar year [new Date().getFullYear()] yields while the routes are
    registered, when the process starts. *)
Variable bootYear : Z.

(** [swaggerUi.serve, swaggerUi.setup(swaggerSpec)]: every request below the
    mount path is answered with a page, a file or a redirection of the
    library. *)
Definition api_docs : Handler :=
  λ _ req db, (Reply (mkResponse (swaggerUi_status (method req) (path req)) Builtin), db).

(** [app.get('/', ...)] *)
Definition home : Handler :=
  λ _ _ db, (Reply (send "Welcome to the Movies Management API!"), db).

(** [app.get('/api/movies', ...)]: the filter built from [req.query]. *)
Definition build_filter (q : gmap string string) : Result Filter :=
  let title := q !! "title" in
  let releaseYear := q !! "releaseYear" in
  let genre := q !! "genre" in
  match JS.truthy title with
  | Some t =>
      match RegExp_new_i t with
      | Throw e => Throw e
      | Ok re => Ok {| f_title := Some re;
                       f_releaseYear := JS.parseInt <$> JS.truthy releaseYear;
                       f_genre := JS.truthy genre |}
      end
  | None => Ok {| f_title := None;
                  f_releaseYear := JS.parseInt <$> JS.truthy releaseYear;
                  f_genre := JS.truthy genre |}
  end.

Definition get_api_movies : Handler :=
  λ env req db,
  match build_filter (query req) with
  | Throw err => (Next err, db)
  | Ok filter =>
      match find env filter db with
      | (Ok movies, db') => (Reply (json (Movies movies)), db')
      | (Throw err, db') => (Next err, db')
      end
  end.

(** The validator array of [app.post('/api/movies', ...)]. *)
Definition post_validators : list chain := [
  body "title" .> notEmpty .> withMessage "Title is required";
  body "director" .> notEmpty .> withMessage "Director is required";
  body "releaseYear"
    .> isInt 1888 bootYear
    .> withMessage "Release year must be valid";
  body "genre"
    .> isIn ["Action"; "Comedy"; "Drama"; "Horror"; "Sci-Fi"; "Romance"; "Other"]
    .> withMessage "Invalid genre";
  body "image" .> optional .> isURL .> withMessage "Image must be a valid URL"
].

(** [app.post('/api/movies', ...)] *)
Definition post_api_movies : Handler :=
  λ env req db,
  match validationResult isURL_test post_validators (Express.body req) with
  | [] =>
      match save env (new (Express.body req)) db with
      | (Ok (id, movie), db') => (Reply (status_json 201 (Document id movie)), db')
      | (Throw err, db') => (Next err, db')
      end
  | errors => (Reply (status_json 400 (Errors errors)), db)
  end.

(** The validator array of [app.put('/api/movies/:id', ...)]. *)
Definition put_validators : list chain := [
  body "title" .> notEmpty .> withMessage "Title is required";
  body "director" .> notEmpty .> withMessage "Director is required";
  body "releaseYear"
    .> isInt 1888 bootYear
    .> withMessage "Release year must be valid";
  body "genre"
    .> isIn ["Action"; "Comedy"; "Drama"; "Horror"; "Sci-Fi"; "Romance"; "Other"]
    .> withMessage "Invalid genre";
  body "image" .> optional .> isURL .> withMessage "Image must be a valid URL"
].

(** [app.put('/api/movies/:id', ...)] *)
Definition put_api_movies_id : Handler :=
  λ env req db,
  match validationResult isURL_test put_validators (Express.body req) with
  | [] =>
      match findByIdAndUpdate env (params req !!! "id") (Express.body req) db with
      | (Ok None, db') =>
          (Reply (status_json 404 (Object [("error", "Movie not found")])), db')
      | (Ok (Some (i, movie)), db') => (Reply (json (Document i movie)), db')
      | (Throw err, db') => (Next err, db')
      end
  | errors => (Reply (status_json 400 (Errors errors)), db)
  end.

(** [app.delete('/api/movies/:id', ...)] *)
Definition delete_api_movies_id : Handler :=
  λ env req db,
  match findByIdAndDelete env (params req !!! "id") db with
  | (Ok None, db') =>
      (Reply (status_json 404 (Object [("error", "Movie not found")])), db')
  | (Ok (Some _), db') => (Reply (json (Object [("message", "Movie deleted")])), db')
  | (Throw err, db') => (Next err, db')
  end.

(** The 404 handler. *)
Definition not_found : Handler :=
  λ _ req db,
  (Reply (status_json 404 (Object [
     ("error", "Not Found");
     ("message", "Route " +:+ method req +:+ " " +:+ url req +:+ " not found")
   ])), db).

(** The error handling middleware; the message is
    [err.message || 'Something went wrong']. *)
Definition error_handler (err : Error) : Response :=
  status_json 500 (Object [
    ("error", "Server Error");
    ("message", if String.eqb (message err) "" then "Something went wrong"
                else message err)
  ]).

(** The routes in the order they are registered. *)
Definition routes : list Layer := [
  mkLayer (UseAt "/api-docs") api_docs;
  mkLayer (Verb "GET" "/") home;
  mkLayer (Verb "GET" "/api/movies") get_api_movies;
  mkLayer (Verb "POST" "/api/movies") post_api_movies;
  mkLayer (Verb "PUT" "/api/movies/:id") put_api_movies_id;
  mkLayer (Verb "DELETE" "/api/movies/:id") delete_api_movies_id
].

(** The stack: the routes, then the 404 handler. *)
Definition stack : list Layer := routes ++ [mkLayer Use not_found].

(** An error a handler forwards with [next(err)] goes to the error handling
    middleware, registered last. *)
Definition on_error (r : Outcome * Db) : Outcome * Db :=
  match r with
  | (Next err, db') => (Reply (error_handler err), db')
  | r => r
  end.

(** The application, for a request whose entity [express.json()] has read. *)
Definition app : Handler :=
  λ env req db, on_error (dispatch stack env req db).

(** The application with [express.json()] before it: the error of an entity
    it cannot read passes over the logger, the routes and the 404 handler
    and reaches the error handling middleware. *)
Definition listen (entity : Entity) : Handler :=
  λ env req db,
  match entity with
  | Readable => app env req db
  | Unreadable _ err => (Reply (error_handler err), db)
  end.

End App.
End VariantB.

(** ** A platform to run the applications on

    One implementation of [Platform], small enough to evaluate requests with.
    It stands for the libraries on the inputs of the scenarios and is no
    substitute for them elsewhere:
    - the URL test follows [isURL] of validator.js with its default options
      (an optional protocol among http, https and ftp, optional user
      information, a host that is a domain name with a top-level domain or
      an IPv4 address, an optional port, then anything); hosts in brackets
      are refused here;
    - regular expressions are those made of plain characters and [.]; a
      pattern holding another special character is refused here, where the
      engine refuses the ill-formed ones only;
    - [decodeURIComponent] reads the escapes of the characters up to U+00FF
      and refuses the others, where the engine refuses the malformed ones
      only;
    - the documentation redirects its mount path to the directory, has no
      [package.json], and answers 200 otherwise;
    - an ObjectId is a string of 24 hexadecimal digits, kept in lower case. *)

Module Sample.

Definition starts_with (p s : string) : bool :=
  String.eqb (substring 0 (String.length p) s) p.

Definition ends_with (p s : string) : bool :=
  starts_with (String.rev p) (String.rev s).

Fixpoint every (f : ascii → bool) (s : string) : bool :=
  match s with
  | EmptyString => true
  | String c r => f c && every f r
  end.

(** The text before the first [c], and the text after it when there is one. *)
Fixpoint cut (c : ascii) (s : string) : string * option string :=
  match s with
  | EmptyString => ("", None)
  | String x r =>
      if Ascii.eqb x c then ("", Some r)
      else (String x (cut c r).1, (cut c r).2)
  end.

(** The text before the first [://] and the text after it. *)
Fixpoint cut_protocol (s : string) : option (string * string) :=
  match s with
  | EmptyString => None
  | String ":" (String "/" (String "/" r)) => Some ("", r)
  | String x r => (λ pr, (String x pr.1, pr.2)) <$> cut_protocol r
  end.

(** The parts of a text between dots. *)
Fixpoint parts (cur : string) (s : string) : list string :=
  match s with
  | EmptyString => [String.rev cur]
  | String "." r => String.rev cur :: parts "" r
  | String c r => parts (String c cur) r
  end.

Definition code (c : ascii) : nat := nat_of_ascii c.

Definition label_char (c : ascii) : bool :=
  JS.is_letter c || JS.is_digit c || Ascii.eqb c "-" || (161 <=? code c)%nat.

Definition tld_char (c : ascii) : bool :=
  JS.is_letter c || ((161 <=? code c) && (code c <=? 168))%nat || (170 <=? code c)%nat.

Definition label_ok (l : string) : bool :=
  (1 <=? String.length l)%nat && (String.length l <=? 63)%nat
  && every label_char l
  && negb (starts_with "-" l) && negb (ends_with "-" l).

Definition tld_ok (t : string) : bool :=
  ((2 <=? String.length t)%nat && every tld_char t)
  || (String.eqb (JS.toLowerCase (substring 0 2 t)) "xn"
      && (4 <=? String.length t)%nat
      && every (λ c, JS.is_letter c || JS.is_digit c || Ascii.eqb c "-")
           (substring 2 (String.length t) t)).

Definition is_fqdn (host : string) : bool :=
  let ps := parts "" host in
  (2 <=? length ps)%nat && tld_ok (List.last ps "") && forallb label_ok ps.

Definition byte_ok (l : string) : bool :=
  negb (String.eqb l "") && JS.all_digits l
  && (String.eqb l "0" || negb (starts_with "0" l))
  && (JS.digits_value 0 l <=? 255).

Definition is_ipv4 (host : string) : bool :=
  let ps := parts "" host in
  (length ps =? 4)%nat && forallb byte_ok ps.

Definition port_ok (port : string) : bool :=
  String.eqb port ""
  || (JS.all_digits port && (0 <? JS.digits_value 0 port)
      && (JS.digits_value 0 port <=? 65535)).

Definition auth_ok (auth : string) : bool :=
  negb (String.eqb auth "") && negb (String.eqb auth ":")
  && match (cut ":" auth).2 with
     | Some password => every (λ c, negb (Ascii.eqb c ":")) password
     | None => true
     end.

Definition host_ok (hostname : string) : bool :=
  negb (starts_with "[" hostname)
  && match cut ":" hostname with
     | (host, Some port) => port_ok port && (is_ipv4 host || is_fqdn host)
     | (host, None) => is_ipv4 host || is_fqdn host
     end.

Definition authority_ok (rest : string) : bool :=
  negb (String.eqb rest "")
  && match cut "@" (cut "/" rest).1 with
     | (auth, Some hostname) => auth_ok auth && host_ok hostname
     | (hostname, None) => host_ok hostname
     end.

Definition url_test (url : string) : bool :=
  negb (String.eqb url "")
  && every (λ c, negb (JS.is_space c || Ascii.eqb c "<" || Ascii.eqb c ">")) url
  && negb (starts_with "mailto:" url)
  && (String.length url <? 2083)%nat
  && let address := (cut "?" (cut "#" url).1).1 in
     match cut_protocol address with
     | Some (protocol, rest) =>
         bool_decide (JS.toLowerCase protocol ∈ ["http"; "https"; "ftp"])
         && authority_ok rest
     | None => negb (starts_with "//" address) && authority_ok address
     end.

Inductive atom :=
| AnyChar
| Char (c : ascii).

Definition metacharacters : list ascii :=
  ["\"; "^"; "$"; "|"; "?"; "*"; "+"; "("; ")"; "["; "]"; "{"; "}"]%char.

Fixpoint compile (p : string) : option (list atom) :=
  match p with
  | EmptyString => Some []
  | String c r =>
      if bool_decide (c ∈ metacharacters) then None
      else (λ l, (if Ascii.eqb c "." then AnyChar else Char c) :: l) <$> compile r
  end.

(** One character under the [i] flag; [.] takes all but a line terminator. *)
Definition atom_test (a : atom) (c : ascii) : bool :=
  match a with
  | AnyChar => negb (Ascii.eqb c "010" || Ascii.eqb c "013")
  | Char x => Ascii.eqb (JS.lower x) (JS.lower c)
  end.

Fixpoint match_here (r : list atom) (s : string) : bool :=
  match r, s with
  | [], _ => true
  | a :: r', String c s' => atom_test a c && match_here r' s'
  | _ :: _, EmptyString => false
  end.

Fixpoint search (r : list atom) (s : string) : bool :=
  match_here r s
  || match s with
     | String _ s' => search r s'
     | EmptyString => false
     end.

Definition new_regexp (p : string) : Result (list atom) :=
  match compile p with
  | Some r => Ok r
  | None => Throw (mkError ("Invalid regular expression: /" +:+ p +:+ "/i") "SyntaxError")
  end.

Lemma plain_char (c : ascii) :
  negb (bool_decide (c ∈ JS.special)) = true →
  bool_decide (c ∈ metacharacters) = false ∧ Ascii.eqb c "." = false.
Proof.
  rewrite negb_true_iff, bool_decide_eq_false. intros Hc. split.
  - apply bool_decide_eq_false. intros Hm. apply Hc.
    unfold metacharacters in Hm. unfold JS.special.
    rewrite !elem_of_cons, elem_of_nil in *. tauto.
  - apply Ascii.eqb_neq. intros ->. apply Hc. unfold JS.special.
    rewrite !elem_of_cons. tauto.
Qed.

Lemma compile_plain (p : string) :
  JS.plain p = true →
  ∃ r, compile p = Some r ∧ ∀ s, match_here r s = JS.prefix_i p s.
Proof.
  induction p as [|c p IH]; simpl.
  - intros _. by exists [].
  - rewrite !andb_true_iff. intros [[_ Hc] Hp].
    destruct (plain_char c Hc) as [Hm Hd].
    destruct (IH Hp) as (r & Hr & Hs). rewrite Hm, Hr, Hd. simpl.
    eexists. split; [reflexivity|]. intros [|x s]; simpl; [done|]. by rewrite Hs.
Qed.

(** On a pattern of plain characters the search of the sample engine is the
    case-insensitive substring test. *)
Lemma plain_search (p : string) :
  JS.plain p = true →
  ∃ r, new_regexp p = Ok r ∧ ∀ s, search r s = JS.includes_i p s.
Proof.
  intros Hp. destruct (compile_plain p Hp) as (r & Hr & Hm).
  exists r. unfold new_regexp. rewrite Hr. split; [done|].
  induction s as [|x s IH]; simpl; rewrite Hm; [done|]. by rewrite IH.
Qed.

(** The character of a [%XX] escape. *)
Definition escaped (h l : ascii) : option ascii :=
  match JS.hex_digit_value h, JS.hex_digit_value l with
  | Some a, Some b => Some (ascii_of_nat (Z.to_nat (16 * a + b)))
  | _, _ => None
  end.

(** The escapes of the ASCII characters, and the two-byte sequences (lead
    byte C2 or C3) of the characters U+0080 to U+00FF. *)
Fixpoint unescape (s : string) : option string :=
  match s with
  | EmptyString => Some ""
  | String "%" (String h (String l r)) =>
      match escaped h l with
      | None => None
      | Some b =>
          if (code b <? 128)%nat then String b <$> unescape r
          else
            match r with
            | String "%" (String h2 (String l2 r2)) =>
                match escaped h2 l2 with
                | Some c =>
                    if ((194 <=? code b) && (code b <=? 195)
                        && (128 <=? code c) && (code c <=? 191))%nat
                    then String (ascii_of_nat ((code b - 192) * 64 + (code c - 128)))
                           <$> unescape r2
                    else None
                | None => None
                end
            | _ => None
            end
      end
  | String "%" _ => None
  | String c r => String c <$> unescape r
  end.

Definition decode (s : string) : Result string :=
  match unescape s with
  | Some t => Ok t
  | None => Throw (mkError "URI malformed" "URIError: URI malformed")
  end.

Lemma decode_plain (s : string) : JS.has_percent s = false → decode s = Ok s.
Proof.
  unfold decode. intros Hs.
  assert (unescape s = Some s) as -> ; [|done].
  induction s as [|c s IH]; [done|].
  simpl in Hs. apply orb_false_iff in Hs as [Hc Hs]. specialize (IH Hs).
  destruct c as [[] [] [] [] [] [] [] []]; try discriminate Hc;
    cbn [unescape]; by rewrite IH.
Qed.

Definition swagger_status (m p : string) : Z :=
  if ends_with "/package.json" p then 404
  else if (String.eqb m "GET" || String.eqb m "HEAD")
          && String.eqb (JS.toLowerCase p) "/api-docs" then 301
  else 200.

Definition is_hex (c : ascii) : bool :=
  match JS.hex_digit_value c with Some _ => true | None => false end.

Fixpoint all_hex (s : string) : bool :=
  match s with
  | EmptyString => true
  | String c r => is_hex c && all_hex r
  end.

Definition cast_error (path : string) : Error :=
  mkError ("Cast failed at path " +:+ path) "CastError".

Definition cast_id (id : string) : Result string :=
  if (String.length id =? 24)%nat && all_hex id
  then Ok (JS.toLowerCase id)
  else Throw (cast_error "_id").

#[global] Instance platform : Platform := {|
  isURL_test := url_test;
  RegExp := list atom;
  RegExp_new_i := new_regexp;
  RegExp_test := search;
  RegExp_plain := plain_search;
  decodeURIComponent := decode;
  decodeURIComponent_plain := decode_plain;
  swaggerUi_status := swagger_status;
  castObjectId := cast_id;
  castError := cast_error;
  duplicateKey := mkError "E11000 duplicate key error collection" "MongoServerError"
|}.

Abbreviation includes_i := JS.includes_i.

(** Requests, environments and collections for the scenarios. *)
Definition request (m p : string) (q : list (string * string))
    (b : list (string * JS.scalar)) : Express.Request :=
  {| Express.method := m; Express.path := p; Express.search := "";
     Express.query := list_to_map q; Express.params := ∅;
     Express.body := list_to_map b |}.

Definition quiet (year : Z) : Mongoose.Env :=
  {| Mongoose.fault := None; Mongoose.newId := "65a1b2c3d4e5f60718293a4b";
     Mongoose.now := year |}.

Definition failing (e : Error) (year : Z) : Mongoose.Env :=
  {| Mongoose.fault := Some e; Mongoose.newId := "65a1b2c3d4e5f60718293a4b";
     Mongoose.now := year |}.

Definition collection (l : list (string * Mongoose.Movie)) : Mongoose.Db :=
  {| Mongoose.docs := list_to_map l; Mongoose.calls := [] |}.

Definition dune_2021 : Mongoose.Movie :=
  {| Mongoose.title := Some "Dune"; Mongoose.director := Some "Villeneuve";
     Mongoose.releaseYear := Some 2021; Mongoose.genre := Some "Sci-Fi";
     Mongoose.image := None |}.

Definition dune_1984 : Mongoose.Movie :=
  {| Mongoose.title := Some "Dune"; Mongoose.director := Some "Lynch";
     Mongoose.releaseYear := Some 1984; Mongoose.genre := Some "Sci-Fi";
     Mongoose.image := None |}.

Definition two_dunes : Mongoose.Db :=
  collection [("0123456789abcdef01234567", dune_2021);
              ("0123456789abcdef01234568", dune_1984)].

(** The payload of a movie released in [year]. *)
Definition arrival (year : Z) : list (string * JS.scalar) :=
  [("title", JS.Str "Arrival"); ("director", JS.Str "Villeneuve");
   ("releaseYear", JS.Number year); ("genre", JS.Str "Sci-Fi")].

(** A request on [/api/movies/:id], as the router hands it to the handler. *)
Definition on_id (id : string) (req : Express.Request) : Express.Request :=
  Express.with_params {[ "id" := id ]} req.

End Sample.

(** ** Vocabulary of the properties *)

Module Props.
Import Mongoose Express Validator.

Section Vocabulary.
Context `{Platform}.

(** The genres both variants list. *)
Definition genres : list string :=
  ["Action"; "Comedy"; "Drama"; "Horror"; "Sci-Fi"; "Romance"; "Other"].

(** What the five fields of a payload have to pass, [bootYear] being the
    upper bound the validators were built with. *)
Definition valid (bootYear : Z) (b : payload) : Prop :=
  check isURL_test NotEmpty (toString (b !! "title")) = true
  ∧ check isURL_test NotEmpty (toString (b !! "director")) = true
  ∧ check isURL_test (IsInt 1888 bootYear) (toString (b !! "releaseYear")) = true
  ∧ check isURL_test (IsIn genres) (toString (b !! "genre")) = true
  ∧ (b !! "image" = None ∨ check isURL_test IsURL (toString (b !! "image")) = true).

(** The four validator arrays of the file, and the four write handlers, each
    with its array. *)
Definition validator_arrays (bootYear : Z) : list (list chain) :=
  [VariantA.post_validators bootYear; VariantA.put_validators bootYear;
   VariantB.post_validators bootYear; VariantB.put_validators bootYear].

Definition write_handlers (bootYear : Z) : list (Handler * list chain) :=
  [(VariantA.post_api_movies bootYear, VariantA.post_validators bootYear);
   (VariantA.put_api_movies_id bootYear, VariantA.put_validators bootYear);
   (VariantB.post_api_movies bootYear, VariantB.post_validators bootYear);
   (VariantB.put_api_movies_id bootYear, VariantB.put_validators bootYear)].

(** A violation of the list names [field]. *)
Definition names (field : string) (errors : list ValidationError) : Prop :=
  ∃ e, e ∈ errors ∧ err_path e = field.

(** A handler answers 400 with a list of violations that names [field], and
    leaves the collection and the trace of model calls as they were. *)
Definition rejects_naming (field : string) (h : Handler)
    (env : Env) (req : Request) (db : Db) : Prop :=
  ∃ errors, h env req db = (Reply (mkResponse 400 (Errors errors)), db)
            ∧ names field errors.

(** The three query filters on a movie, as the listing reads them from
    [req.query]. *)
Definition title_matches (q : gmap string string) (m : Movie) : Prop :=
  match JS.truthy (q !! "title") with
  | None => True
  | Some t => ∃ re s, RegExp_new_i t = Ok re ∧ title m = Some s ∧ RegExp_test re s = true
  end.

Definition releaseYear_matches (q : gmap string string) (m : Movie) : Prop :=
  match JS.truthy (q !! "releaseYear") with
  | None => True
  | Some y => ∃ n, JS.parseInt y = Some (JS.Finite n) ∧ releaseYear m = Some n
  end.

Definition genre_matches (q : gmap string string) (m : Movie) : Prop :=
  match JS.truthy (q !! "genre") with
  | None => True
  | Some g => genre m = Some g
  end.

(** The query can be run: the engine takes the title pattern and the release
    year reads as a number. *)
Definition runnable (q : gmap string string) : Prop :=
  match JS.truthy (q !! "title") with
  | None => True
  | Some t => ∃ re, RegExp_new_i t = Ok re
  end
  ∧ match JS.truthy (q !! "releaseYear") with
    | None => True
    | Some y => ∃ n, JS.parseInt y = Some n
    end.

(** How a request ended: answered with status [n]; answered with a client
    error. *)
Definition has_status (n : Z) (o : Outcome) : Prop :=
  ∃ r, o = Reply r ∧ status r = n.

Definition client_error (o : Outcome) : Prop :=
  ∃ r, o = Reply r ∧ 400 ≤ status r < 500.

(** A text holds [part] somewhere. *)
Definition mentions (text part : string) : Prop :=
  ∃ before after, text = before +:+ part +:+ after.



(** The paths of [movieSchema], and a payload that holds no other field. *)
Definition schema_paths : list string :=
  ["title"; "director"; "releaseYear"; "genre"; "image"].

Definition only_schema_paths (b : payload) : Prop :=
  ∀ k, is_Some (b !! k) → k ∈ schema_paths.

End Vocabulary.
End Props.

(** ** The stored movies *)

Module Data.
Import Mongoose Express.

Section Stored.
Context `{Platform}.

(** A movie as the write handlers store it, [bootYear] being the upper bound
    their validators were built with: a title and a director that are not
    empty, a release year in range, a genre of the list, and an image that,
    when there is one, passes the URL test. *)
Definition well_formed (bootYear : Z) (m : Movie) : Prop :=
  (∃ t, title m = Some t ∧ t ≠ "")
  ∧ (∃ d, director m = Some d ∧ d ≠ "")
  ∧ (∃ n, releaseYear m = Some n ∧ 1888 ≤ n ≤ bootYear)
  ∧ (∃ g, genre m = Some g ∧ g ∈ Props.genres)
  ∧ (∀ u, image m = Some u → isURL_test u = true).

Definition all_well_formed (bootYear : Z) (docs : gmap string Movie) : Prop :=
  ∀ id m, docs !! id = Some m → well_formed bootYear m.

(** The document a valid payload [b] makes of the stored movie [m]: the four
    required paths come from the payload, the image too when the payload has
    one. *)
Definition updated (b : Validator.payload) (y : option Z) (m : Movie) : Movie :=
  {| title := castString (b !! "title");
     director := castString (b !! "director");
     releaseYear := y;
     genre := castString (b !! "genre");
     image := match b !! "image" with
              | Some _ => castString (b !! "image")
              | None => image m
              end |}.

(** A request ended with an answer of status 200 or 201. *)
Definition succeeded (o : Outcome) : Prop :=
  ∃ r, o = Reply r ∧ (status r = 200 ∨ status r = 201).

(** What one request may do to the collection and to the trace of model
    calls: nothing; or, on a request that succeeded, store one document
    (well formed when the stored ones were) or remove one; and at most one
    call of the model. *)
Definition effect (bootYear : Z) (db db' : Db) (o : Outcome) : Prop :=
  (docs db' = docs db
   ∨ (succeeded o
      ∧ ((∃ k m, (all_well_formed bootYear (docs db) → well_formed bootYear m)
                 ∧ docs db' = <[k := m]> (docs db))
         ∨ (∃ k, docs db' = delete k (docs db)))))
  ∧ (calls db' = calls db ∨ ∃ c, calls db' = (calls db ++ [c])%list).

(** A handler whose every request has that effect. *)
Definition keeps (bootYear : Z) (h : Handler) : Prop :=
  ∀ env req db, effect bootYear db (h env req db).2 (h env req db).1.

(** A path segment: a text without a slash. *)
Fixpoint no_slash (s : string) : bool :=
  match s with
  | EmptyString => true
  | String c r => negb (Ascii.eqb c "/") && no_slash r
  end.

(** Where [parseInt] stops reading a decimal numeral: at the end of the text
    or at a character that is no decimal digit (and no [x], which after a
    lone [0] would make the text a hexadecimal numeral). *)
Definition stops (rest : string) : Prop :=
  match rest with
  | EmptyString => True
  | String c _ => JS.radix_digit 10 c = None ∧ c ≠ "x"%char ∧ c ≠ "X"%char
  end.

End Stored.
End Data.

(** ** The request log

    [log.txt] and the console, as the logger middleware and the error
    middleware of the file write them; what the framework itself reports on
    the console about an error it answers is not recorded.  [fs.appendFile]
    is asynchronous and nothing waits for it: the model records what it ends
    up doing, in the order the writes were issued. *)

Module Logging.
Import Mongoose Express.

Inductive ConsoleLine :=
| LoggingError (err : Error)
| ErrorStack (text : string).

Record Files := mkFiles { log_txt : list string; console : list ConsoleLine }.

(** What surrounds the writes of one request: the text of
    [new Date().toISOString()] when the logger runs and when the error
    middleware runs, and the error [fs.appendFile] reports, if it fails. *)
Record Io := mkIo {
  logged_at : string;
  failed_at : string;
  append_error : option Error
}.

Definition newline : string := String "010" "".

(** [fs.appendFile('log.txt', line, callback)] *)
Definition appendFile (io : Io) (line : string)
    (callback : option Error → list ConsoleLine) (fs : Files) : Files :=
  match append_error io with
  | None => {| log_txt := log_txt fs ++ [line]; console := console fs ++ callback None |}
  | Some err => {| log_txt := log_txt fs; console := console fs ++ callback (Some err) |}
  end.

(** The line the logger middleware writes. *)
Definition request_line (io : Io) (req : Request) : string :=
  "[" +:+ logged_at io +:+ "] " +:+ method req +:+ " " +:+ url req +:+ newline.

(** The logger middleware; it goes on with [next()] whatever the write does. *)
Definition logger (io : Io) (req : Request) (fs : Files) : Files :=
  appendFile io (request_line io req)
    (λ err, match err with Some e => [LoggingError e] | None => [] end) fs.

(** The line the error handling middleware of variant B writes. *)
Definition error_line (io : Io) (err : Error) : string :=
  "[" +:+ failed_at io +:+ "] ERROR: " +:+ stack err +:+ newline.

(** What the error handling middleware of variant B does before it answers:
    the stack goes to the console and to the log; the callback of the write
    does nothing. *)
Definition error_log (io : Io) (err : Error) (fs : Files) : Files :=
  appendFile io (error_line io err) (λ _, [])
    {| log_txt := log_txt fs;
       console := console fs ++ [ErrorStack ("[ERROR] " +:+ stack err)] |}.

Section Served.
Context `{Platform}.
Variable bootYear : Z.

(** Variant A with its log.  [express.json()] comes first, then the
    documentation, then the logger: a request whose entity cannot be read, or
    that the documentation takes, never reaches the logger. *)
Definition serve_A (io : Io) (entity : Entity) (env : Env) (req : Request) (db : Db)
    (fs : Files) : Outcome * Db * Files :=
  match entity with
  | Unreadable _ _ => (VariantA.listen bootYear entity env req db, fs)
  | Readable =>
      if match_mount "/api-docs" (path req)
      then (VariantA.app bootYear env req db, fs)
      else (VariantA.app bootYear env req db, logger io req fs)
  end.

(** Variant B with its log.  [express.json()] comes first, then the logger.
    An error, raised by [express.json()] or by the router or forwarded by a
    handler, is logged by the error handling middleware before it answers;
    the error of [express.json()] passes over the logger. *)
Definition serve_B (io : Io) (entity : Entity) (env : Env) (req : Request) (db : Db)
    (fs : Files) : Outcome * Db * Files :=
  match entity with
  | Unreadable _ err => (Reply (VariantB.error_handler err), db, error_log io err fs)
  | Readable =>
      let fs := logger io req fs in
      match dispatch (VariantB.stack bootYear) env req db with
      | (Next err, db') => (Reply (VariantB.error_handler err), db', error_log io err fs)
      | r => (r, fs)
      end
  end.

End Served.
End Logging.

(** ** Requests for the scenarios of the two applications *)

Module Cases.
Import Sample.

Definition first_id : string := "0123456789abcdef01234567".
Definition new_id : string := "65a1b2c3d4e5f60718293a4b".

(** [POST /api/movies] with the movie of 2016. *)
Definition create_movie : Express.Request := request "POST" "/api/movies" [] (arrival 2016).

(** [GET /api/movies], without parameters and for one year. *)
Definition list_movies : Express.Request := request "GET" "/api/movies" [] [].
Definition list_year (y : string) : Express.Request :=
  request "GET" "/api/movies" [("releaseYear", y)] [].

Definition delete_at (id : string) : Express.Request :=
  request "DELETE" ("/api/movies/" +:+ id) [] [].
Definition delete_movie (id : string) : Express.Request := on_id id (delete_at id).

(** A request whose id holds a malformed escape. *)
Definition bad_escape : Express.Request := request "GET" "/api/movies/%zz" [] [].


(** An entity that is no JSON, as [express.json()] reports it. *)
Definition not_json : Express.Entity :=
  Express.Unreadable 400
    (mkError "Unexpected token } in JSON at position 1" "SyntaxError: Unexpected token }").



(** The log before the request, and a disk that takes the write. *)
Definition files : Logging.Files := {| Logging.log_txt := []; Logging.console := [] |}.
Definition disk : Logging.Io :=
  {| Logging.logged_at := "2025-06-01T10:00:00.000Z";
     Logging.failed_at := "2025-06-01T10:00:00.020Z";
     Logging.append_error := None |}.

End Cases.

(** ** Decimal numerals: [String(n)] read back *)

Section Decimal.
Import JS.

Lemma pretty_N_char_digit d :
  (d < 10)%N → is_digit (pretty_N_char d) = true ∧ digit_value (pretty_N_char d) = Z.of_N d.
Proof.
  intros Hd.
  assert (d = 0 ∨ d = 1 ∨ d = 2 ∨ d = 3 ∨ d = 4 ∨ d = 5 ∨ d = 6 ∨ d = 7 ∨ d = 8 ∨ d = 9)%N
    as Hc by lia.
  repeat (destruct Hc as [->|Hc]; [by vm_compute|]). subst. by vm_compute.
Qed.

Lemma pretty_N_go_digits x s :
  all_digits s = true →
  all_digits (pretty_N_go x s) = true
  ∧ digits_value 0 (pretty_N_go x s) = digits_value (Z.of_N x) s.
Proof.
  revert s. induction (N.lt_wf_0 x) as [x _ IH]. intros s Hs.
  destruct (decide (x = 0)%N) as [->|Hx].
  - by rewrite pretty_N_go_0.
  - rewrite pretty_N_go_step by lia.
    destruct (pretty_N_char_digit (x `mod` 10)%N) as [Hd Hv].
    { apply N.mod_lt. lia. }
    destruct (IH (x `div` 10)%N) with (s := String (pretty_N_char (x `mod` 10)) s)
      as [Ha Hval].
    { apply N.div_lt; lia. }
    { simpl. by rewrite Hd, Hs. }
    split; [done|]. rewrite Hval. simpl. rewrite Hv. f_equal.
    rewrite (N.div_mod x 10) at 3 by lia. lia.
Qed.

Lemma digits_int_pattern s :
  all_digits s = true → s ≠ "" →
  Validator.int_pattern s = true ∧ Validator.int_value s = digits_value 0 s.
Proof.
  destruct s as [|c r]; [done|]. intros Hs _.
  assert (Hc : is_digit c = true) by (simpl in Hs; by destruct (is_digit c)).
  unfold Validator.int_pattern, Validator.int_value.
  destruct c as [[] [] [] [] [] [] [] []]; try discriminate Hc; by rewrite Hs.
Qed.

Lemma pretty_positive_digits (p : positive) :
  all_digits (pretty p) = true ∧ pretty p ≠ "" ∧ digits_value 0 (pretty p) = Z.pos p.
Proof.
  unfold pretty, pretty_positive, pretty, pretty_N.
  rewrite decide_False by done.
  destruct (pretty_N_go_digits (N.pos p) "") as [Ha Hv]; [done|].
  split; [done|]. split; [|by rewrite Hv].
  intros He. rewrite He in Hv. simpl in Hv. lia.
Qed.

(** [isInt] reads the decimal numeral of [n] as [n]. *)
Lemma int_pattern_pretty (n : Z) :
  Validator.int_pattern (pretty n) = true ∧ Validator.int_value (pretty n) = n.
Proof.
  destruct n as [|p|p].
  - by vm_compute.
  - destruct (pretty_positive_digits p) as (Ha & Hne & Hv).
    destruct (digits_int_pattern (pretty p) Ha Hne) as [Hp Hi].
    change (pretty (Z.pos p)) with (pretty p). split; [done|congruence].
  - destruct (pretty_positive_digits p) as (Ha & Hne & Hv).
    change (pretty (Z.neg p)) with (String "-" (pretty p)).
    unfold Validator.int_pattern, Validator.int_value. rewrite Ha, Hv.
    split; [|lia]. by destruct (pretty p).
Qed.

Lemma check_isInt_pretty (u : string → bool) lo hi (n : Z) :
  Validator.check u (Validator.IsInt lo hi) (pretty n) = bool_decide (lo ≤ n ≤ hi).
Proof.
  simpl. destruct (int_pattern_pretty n) as [-> ->]. simpl.
  case_bool_decide; [apply andb_true_iff|apply andb_false_iff]; lia.
Qed.

End Decimal.

(** ** Validators *)

Section ValidatorFacts.
Import Validator.
Variable url_ok : string → bool.

Lemma check_isLength_1 s : check url_ok (IsLength 1) s = check url_ok NotEmpty s.
Proof. by destruct s. Qed.

Lemma check_isInt_notEmpty lo hi s :
  check url_ok (IsInt lo hi) s = true → check url_ok NotEmpty s = true.
Proof.
  simpl. intros Hs. destruct s; [|done].
  by rewrite !andb_true_iff in Hs; destruct Hs as [[? ?] ?].
Qed.

Lemma check_isIn_notEmpty values s :
  "" ∉ values → check url_ok (IsIn values) s = true → check url_ok NotEmpty s = true.
Proof.
  simpl. intros Hv Hs. apply bool_decide_eq_true in Hs.
  destruct s; [done|]. done.
Qed.

Lemma flat_map_nil {A B} (f : A → list B) (l : list A) :
  flat_map f l = [] ↔ Forall (λ x, f x = []) l.
Proof.
  induction l as [|x l IH]; simpl.
  - by rewrite Forall_nil.
  - by rewrite Forall_cons, <- IH, app_nil.
Qed.

Lemma run_step_nil path v s :
  run_step url_ok path v s = [] ↔ check url_ok (step_validator s) (toString v) = true.
Proof. unfold run_step. by destruct (check _ _ _). Qed.

Lemma run_chain_nil b c :
  run_chain url_ok b c = []
  ↔ (chain_optional c = true ∧ b !! chain_path c = None)
    ∨ Forall (λ s, check url_ok (step_validator s) (toString (b !! chain_path c)) = true)
        (chain_steps c).
Proof.
  unfold run_chain.
  destruct (chain_optional c); simpl.
  - case_bool_decide as Hv.
    + tauto.
    + rewrite flat_map_nil. setoid_rewrite run_step_nil. tauto.
  - rewrite flat_map_nil. setoid_rewrite run_step_nil. intuition discriminate.
Qed.

Lemma validationResult_nil cs b :
  validationResult url_ok cs b = [] ↔ Forall (λ c, run_chain url_ok b c = []) cs.
Proof. apply flat_map_nil. Qed.

(** An error of the result comes from the chain of its path. *)
Lemma elem_of_run_chain b c e :
  e ∈ run_chain url_ok b c →
  err_path e = chain_path c ∧ err_value e = b !! chain_path c
  ∧ ∃ s, s ∈ chain_steps c ∧ err_msg e = step_message s
         ∧ check url_ok (step_validator s) (toString (b !! chain_path c)) = false.
Proof.
  unfold run_chain. destruct (_ && _); [by intros ?%elem_of_nil|].
  rewrite list_elem_of_In, in_flat_map. intros (s & Hs & He).
  unfold run_step in He. destruct (check _ _ _) eqn:Hc; [done|].
  destruct He as [<-|[]]. simpl. rewrite <- list_elem_of_In in Hs. eauto 10.
Qed.

Lemma elem_of_validationResult cs b e :
  e ∈ validationResult url_ok cs b ↔ ∃ c, c ∈ cs ∧ e ∈ run_chain url_ok b c.
Proof.
  unfold validationResult. rewrite list_elem_of_In, in_flat_map.
  by setoid_rewrite list_elem_of_In.
Qed.

End ValidatorFacts.

(** ** The validator arrays of the two variants *)

Section Chains.
Import Validator Express Props.
Context `{Platform}.
Variable bootYear : Z.




Ltac chain_nil :=
  rewrite validationResult_nil; repeat rewrite Forall_cons; rewrite Forall_nil;
  rewrite !run_chain_nil; cbn - [check toString];
  repeat rewrite Forall_cons; repeat rewrite Forall_nil; cbn - [check toString].

Lemma genres_not_empty : "" ∉ genres.
Proof.
  unfold genres. rewrite !elem_of_cons, elem_of_nil. intuition discriminate.
Qed.

Lemma post_validators_A_nil b :
  validationResult isURL_test (VariantA.post_validators bootYear) b = [] ↔ valid bootYear b.
Proof.
  pose proof (check_isInt_notEmpty isURL_test 1888 bootYear (toString (b !! "releaseYear"))).
  pose proof (check_isIn_notEmpty isURL_test genres (toString (b !! "genre")) genres_not_empty).
  pose proof (check_isLength_1 isURL_test (toString (b !! "title"))) as Hl.
  unfold VariantA.post_validators, valid. chain_nil. fold genres.
  rewrite Hl. intuition congruence.
Qed.

Lemma post_validators_B_nil b :
  validationResult isURL_test (VariantB.post_validators bootYear) b = [] ↔ valid bootYear b.
Proof.
  unfold VariantB.post_validators, valid. chain_nil. fold genres.
  intuition congruence.
Qed.

Lemma put_validators_A_eq : VariantA.put_validators bootYear = VariantA.post_validators bootYear.
Proof. reflexivity. Qed.

Lemma put_validators_B_eq : VariantB.put_validators bootYear = VariantB.post_validators bootYear.
Proof. reflexivity. Qed.


Lemma validator_arrays_nil cs b :
  cs ∈ validator_arrays bootYear → validationResult isURL_test cs b = [] ↔ valid bootYear b.
Proof.
  unfold validator_arrays. rewrite !elem_of_cons, elem_of_nil.
  intros [->|[->|[->|[->|[]]]]];
    rewrite ?put_validators_A_eq, ?put_validators_B_eq;
    auto using post_validators_A_nil, post_validators_B_nil.
Qed.

(** The violations that name a path come from the chains of that path. *)
Lemma names_iff cs (b : payload) p :
  names p (validationResult isURL_test cs b)
  ↔ ∃ c, c ∈ cs ∧ chain_path c = p ∧ run_chain isURL_test b c ≠ [].
Proof.
  split.
  - intros (e & He & Hp). apply elem_of_validationResult in He as (c & Hc & He).
    exists c. split; [done|].
    destruct (elem_of_run_chain _ _ _ _ He) as (Hpath & _).
    split; [congruence|]. intros Hnil. rewrite Hnil in He. by apply elem_of_nil in He.
  - intros (c & Hc & Hp & Hne).
    destruct (run_chain isURL_test b c) as [|e l] eqn:Hr; [done|].
    exists e. split.
    + apply elem_of_validationResult. exists c. split; [done|]. rewrite Hr. left.
    + assert (He : e ∈ run_chain isURL_test b c) by (rewrite Hr; left).
      destruct (elem_of_run_chain _ _ _ _ He) as (Hpath & _). congruence.
Qed.

Lemma names_unique cs (b : payload) p c0 :
  filter (λ c, chain_path c = p) cs = [c0] →
  names p (validationResult isURL_test cs b)
  ↔ run_chain isURL_test b c0 ≠ [].
Proof.
  intros Hf. rewrite names_iff. split.
  - intros (c & Hc & Hp & Hne).
    assert (Hin : c ∈ filter (λ c, chain_path c = p) cs) by by apply list_elem_of_filter.
    rewrite Hf in Hin. by apply list_elem_of_singleton in Hin as <-.
  - intros Hne. exists c0.
    assert (Hin : c0 ∈ filter (λ c, chain_path c = p) cs) by (rewrite Hf; left).
    apply list_elem_of_filter in Hin as [? ?]. done.
Qed.

Ltac in_arrays H :=
  unfold validator_arrays in H; rewrite !elem_of_cons, elem_of_nil in H;
  destruct H as [->|[->|[->|[->|[]]]]];
  rewrite ?put_validators_A_eq, ?put_validators_B_eq.

Ltac field_chain :=
  erewrite names_unique by reflexivity;
  rewrite run_chain_nil; cbn - [check toString];
  repeat rewrite Forall_cons; repeat rewrite Forall_nil; cbn - [check toString].

Lemma names_title cs b :
  cs ∈ validator_arrays bootYear →
  names "title" (validationResult isURL_test cs b)
  ↔ check isURL_test NotEmpty (toString (b !! "title")) = false.
Proof.
  intros Hcs.
  pose proof (check_isLength_1 isURL_test (toString (b !! "title"))) as Hl.
  rewrite <- not_true_iff_false.
  in_arrays Hcs; field_chain; rewrite ?Hl; intuition congruence.
Qed.

Lemma names_releaseYear cs b :
  cs ∈ validator_arrays bootYear →
  names "releaseYear" (validationResult isURL_test cs b)
  ↔ check isURL_test (IsInt 1888 bootYear) (toString (b !! "releaseYear")) = false.
Proof.
  intros Hcs.
  pose proof (check_isInt_notEmpty isURL_test 1888 bootYear (toString (b !! "releaseYear"))).
  rewrite <- not_true_iff_false.
  in_arrays Hcs; field_chain; intuition congruence.
Qed.

Lemma names_image cs b :
  cs ∈ validator_arrays bootYear →
  names "image" (validationResult isURL_test cs b)
  ↔ ∃ v, b !! "image" = Some v ∧ isURL_test (toString (Some v)) = false.
Proof.
  intros Hcs.
  assert ((∃ v, b !! "image" = Some v ∧ isURL_test (toString (Some v)) = false)
          ↔ ¬ (b !! "image" = None ∨ isURL_test (toString (b !! "image")) = true)) as ->.
  { destruct (b !! "image") as [v|]; split.
    - intros (v' & [= <-] & Hu) [Hn|Ht]; congruence.
    - intros Hn. exists v. split; [done|].
      destruct (isURL_test (toString (Some v))); [|done]. exfalso. apply Hn. by right.
    - by intros (v & Hv & _).
    - intros Hn. exfalso. apply Hn. by left. }
  in_arrays Hcs; field_chain; intuition congruence.
Qed.

(** A non-empty validation result ends the four write handlers with a 400. *)
Lemma write_handlers_reject req env db :
  let b := Express.body req in
  (validationResult isURL_test (VariantA.post_validators bootYear) b ≠ [] →
   VariantA.post_api_movies bootYear env req db
   = (Reply (mkResponse 400 (Errors (validationResult isURL_test (VariantA.post_validators bootYear) b))), db))
  ∧ (validationResult isURL_test (VariantA.put_validators bootYear) b ≠ [] →
   VariantA.put_api_movies_id bootYear env req db
   = (Reply (mkResponse 400 (Errors (validationResult isURL_test (VariantA.put_validators bootYear) b))), db))
  ∧ (validationResult isURL_test (VariantB.post_validators bootYear) b ≠ [] →
   VariantB.post_api_movies bootYear env req db
   = (Reply (mkResponse 400 (Errors (validationResult isURL_test (VariantB.post_validators bootYear) b))), db))
  ∧ (validationResult isURL_test (VariantB.put_validators bootYear) b ≠ [] →
   VariantB.put_api_movies_id bootYear env req db
   = (Reply (mkResponse 400 (Errors (validationResult isURL_test (VariantB.put_validators bootYear) b))), db)).
Proof.
  cbn zeta.
  unfold VariantA.post_api_movies, VariantA.put_api_movies_id,
    VariantB.post_api_movies, VariantB.put_api_movies_id.
  repeat split; intros Hne; by destruct (validationResult _ _ _).
Qed.


Lemma write_handler_rejects h cs field env req db :
  (h, cs) ∈ write_handlers bootYear →
  names field (validationResult isURL_test cs (Express.body req)) →
  rejects_naming field h env req db.
Proof.
  intros Hh (e & He & Hp).
  assert (Hne : validationResult isURL_test cs (Express.body req) ≠ []).
  { intros Hnil. rewrite Hnil in He. by apply elem_of_nil in He. }
  exists (validationResult isURL_test cs (Express.body req)). split; [|by exists e].
  destruct (write_handlers_reject req env db) as (H1 & H2 & H3 & H4).
  unfold write_handlers in Hh. rewrite !elem_of_cons, elem_of_nil in Hh.
  destruct Hh as [[= -> ->]|[[= -> ->]|[[= -> ->]|[[= -> ->]|[]]]]]; auto.
Qed.

Lemma write_handlers_arrays h cs : (h, cs) ∈ write_handlers bootYear → cs ∈ validator_arrays bootYear.
Proof.
  unfold write_handlers, validator_arrays. rewrite !elem_of_cons, !elem_of_nil.
  intros [[= -> ->]|[[= -> ->]|[[= -> ->]|[[= -> ->]|[]]]]]; auto 10.
Qed.

End Chains.

(** ** Validation of the write payloads *)

Section WriteValidation.
Import Mongoose Express Validator Props.
Context `{Platform}.

(** C1.  A write payload without [title]: the create and the update handler of
    both variants answer 400 with a list of violations that names [title];
    the collection and the trace of model calls are returned as they were
    (nothing is inserted or modified, the model is not called). *)
Theorem missing_title_is_rejected (bootYear : Z) (env : Env) (req : Request) (db : Db) :
  Express.body req !! "title" = None →
  rejects_naming "title" (VariantA.post_api_movies bootYear) env req db
  ∧ rejects_naming "title" (VariantA.put_api_movies_id bootYear) env req db
  ∧ rejects_naming "title" (VariantB.post_api_movies bootYear) env req db
  ∧ rejects_naming "title" (VariantB.put_api_movies_id bootYear) env req db.
Proof.
  intros Ht.
  assert (Hall : ∀ h cs, (h, cs) ∈ write_handlers bootYear → rejects_naming "title" h env req db).
  { intros h cs Hh. apply (write_handler_rejects bootYear h cs); [done|].
    apply names_title with (bootYear := bootYear).
    - by apply (write_handlers_arrays bootYear h).
    - by rewrite Ht. }
  unfold write_handlers in Hall.
  repeat split; eapply Hall; rewrite !elem_of_cons; eauto 10.
Qed.

(** On the texts of this model, sequences of 8-bit characters whose length
    [isLength] counts as it is, the validator arrays of variant A and of
    variant B pass the same payloads, on create and on update: [isInt] and
    [isIn] refuse the empty text of a missing field, and
    [isLength({ min: 1 })] passes what [notEmpty] passes.  Texts with
    characters beyond these, which some releases of validator.js count for
    nothing in [isLength], are outside this statement. *)
Lemma validator_arrays_agree (bootYear : Z) (b : payload) :
  (validationResult isURL_test (VariantA.post_validators bootYear) b = []
   ↔ validationResult isURL_test (VariantB.post_validators bootYear) b = [])
  ∧ (validationResult isURL_test (VariantA.put_validators bootYear) b = []
     ↔ validationResult isURL_test (VariantB.put_validators bootYear) b = [])
  ∧ (∀ s, check isURL_test (IsInt 1888 bootYear) s = true → check isURL_test NotEmpty s = true)
  ∧ (∀ s, check isURL_test (IsIn genres) s = true → check isURL_test NotEmpty s = true)
  ∧ (∀ s, check isURL_test (IsLength 1) s = check isURL_test NotEmpty s).
Proof.
  split; [|split; [|split; [|split]]].
  - by rewrite post_validators_A_nil, post_validators_B_nil.
  - by rewrite put_validators_A_eq, put_validators_B_eq,
      post_validators_A_nil, post_validators_B_nil.
  - apply check_isInt_notEmpty.
  - intros s. apply check_isIn_notEmpty, genres_not_empty.
  - apply check_isLength_1.
Qed.

(** X1.  The release year of a payload, given as the number [n] or as its
    decimal numeral, gets a violation exactly outside [1888 .. bootYear], the
    year the validators were built in; this for each of the four arrays. *)
Theorem releaseYear_range (bootYear n : Z) (b : payload) :
  b !! "releaseYear" = Some (JS.Number n) ∨ b !! "releaseYear" = Some (JS.Str (pretty n)) →
  ∀ cs, cs ∈ validator_arrays bootYear →
  names "releaseYear" (validationResult isURL_test cs b) ↔ ¬ (1888 ≤ n ≤ bootYear).
Proof.
  intros Hn cs Hcs. rewrite (names_releaseYear bootYear cs) by done.
  assert (toString (b !! "releaseYear") = pretty n) as ->
    by (destruct Hn as [-> | ->]; [done|]; simpl; by destruct (pretty n)).
  rewrite check_isInt_pretty. by rewrite bool_decide_eq_false.
Qed.

End WriteValidation.

(** ** Deleting *)

Section Delete.
Import Mongoose Express Props.
Context `{Platform}.

Lemma findByIdAndDelete_found env id db oid m :
  fault env = None → castObjectId id = Ok oid → docs db !! oid = Some m →
  findByIdAndDelete env id db
  = (Ok (Some (oid, m)),
     {| docs := delete oid (docs db); calls := calls db ++ [CallFindByIdAndDelete] |}).
Proof.
  intros Hf Hc Hm. unfold findByIdAndDelete. rewrite Hc, Hf. simpl. by rewrite Hm.
Qed.

Lemma findByIdAndDelete_unknown env id db oid :
  fault env = None → castObjectId id = Ok oid → docs db !! oid = None →
  findByIdAndDelete env id db = (Ok None, called CallFindByIdAndDelete db).
Proof.
  intros Hf Hc Hm. unfold findByIdAndDelete. rewrite Hc, Hf. simpl. by rewrite Hm.
Qed.

Lemma findByIdAndDelete_malformed env id db e :
  castObjectId id = Throw e →
  findByIdAndDelete env id db = (Throw e, called CallFindByIdAndDelete db).
Proof. intros Hc. unfold findByIdAndDelete. by rewrite Hc. Qed.

(** C5.  Deleting the same id twice, the record being there and the database
    answering: the first request is answered 200 with the confirmation and
    takes exactly the record of that id out of the collection; the second is
    answered 404 and changes nothing more.  In both variants. *)
Theorem delete_twice (env1 env2 : Env) (req : Request) (db : Db) (oid : string) (m : Movie) :
  fault env1 = None → fault env2 = None →
  castObjectId (params req !!! "id") = Ok oid →
  docs db !! oid = Some m →
  (∃ db1 db2,
     VariantA.delete_api_movies_id env1 req db
       = (Reply (mkResponse 200 (Text "Movie deleted")), db1)
     ∧ docs db1 = delete oid (docs db)
     ∧ VariantA.delete_api_movies_id env2 req db1
       = (Reply (mkResponse 404 (Text "Movie not found")), db2)
     ∧ docs db2 = docs db1)
  ∧ (∃ db1 db2,
       VariantB.delete_api_movies_id env1 req db
         = (Reply (mkResponse 200 (Object [("message", "Movie deleted")])), db1)
       ∧ docs db1 = delete oid (docs db)
       ∧ VariantB.delete_api_movies_id env2 req db1
         = (Reply (mkResponse 404 (Object [("error", "Movie not found")])), db2)
       ∧ docs db2 = docs db1).
Proof.
  intros Hf1 Hf2 Hc Hm.
  pose (db1 := {| docs := delete oid (docs db);
                  calls := calls db ++ [CallFindByIdAndDelete] |}).
  assert (Hgone : docs db1 !! oid = None) by apply lookup_delete_eq.
  split; exists db1, (called CallFindByIdAndDelete db1);
    unfold VariantA.delete_api_movies_id, VariantB.delete_api_movies_id;
    rewrite (findByIdAndDelete_found env1 _ db oid m) by done;
    rewrite (findByIdAndDelete_unknown env2 _ db1 oid) by done; done.
Qed.

(** C6, as the code has it.  A delete request whose id the ObjectId cast
    refuses: variant A answers 400 [Invalid ID]; variant B forwards the cast
    error to its error middleware, which answers 500 with the message of the
    error.  Neither touches the collection. *)
Theorem malformed_id_on_delete (env : Env) (req : Request) (db : Db) (e : Error) :
  castObjectId (params req !!! "id") = Throw e →
  VariantA.delete_api_movies_id env req db
    = (Reply (mkResponse 400 (Text "Invalid ID")), called CallFindByIdAndDelete db)
  ∧ VariantB.on_error (VariantB.delete_api_movies_id env req db)
    = (Reply (mkResponse 500 (Object [
         ("error", "Server Error");
         ("message", if String.eqb (message e) "" then "Something went wrong"
                     else message e)])),
       called CallFindByIdAndDelete db).
Proof.
  intros Hc.
  unfold VariantA.delete_api_movies_id, VariantB.delete_api_movies_id.
  by rewrite (findByIdAndDelete_malformed env _ db e) by done.
Qed.

End Delete.

(** ** Listing *)

Section Listing.
Import Mongoose Express Props.
Context `{Platform}.

Lemma build_filter_same q : VariantB.build_filter q = VariantA.build_filter q.
Proof. reflexivity. Qed.

Lemma matches_iff (f : Filter) (m : Movie) :
  matches f m = true
  ↔ match f_title f with
    | None => True
    | Some re => ∃ s, title m = Some s ∧ RegExp_test re s = true
    end
    ∧ match f_releaseYear f with
      | None => True
      | Some n => ∃ k, n = Some (JS.Finite k) ∧ releaseYear m = Some k
      end
    ∧ match f_genre f with
      | None => True
      | Some g => genre m = Some g
      end.
Proof.
  unfold matches. rewrite !andb_true_iff.
  assert (match f_title f with
          | None => true
          | Some re => match title m with Some t => RegExp_test re t | None => false end
          end = true
          ↔ match f_title f with
            | None => True
            | Some re => ∃ s, title m = Some s ∧ RegExp_test re s = true
            end) as ->.
  { destruct (f_title f) as [re|]; [|done]. destruct (title m) as [t|].
    - split; [eauto|]. by intros (s & [= <-] & ?).
    - split; [done|]. by intros (s & ? & ?). }
  assert (match f_releaseYear f with
          | None => true
          | Some (Some (JS.Finite n)) => bool_decide (releaseYear m = Some n)
          | Some _ => false
          end = true
          ↔ match f_releaseYear f with
            | None => True
            | Some n => ∃ k, n = Some (JS.Finite k) ∧ releaseYear m = Some k
            end) as ->.
  { destruct (f_releaseYear f) as [[[n|b]|]|]; [| | |done].
    - rewrite bool_decide_eq_true. split; [eauto|]. by intros (k & [= <-] & ?).
    - split; [done|]. by intros (k & [=] & _).
    - split; [done|]. by intros (k & [=] & _). }
  assert (match f_genre f with
          | None => true
          | Some g => bool_decide (genre m = Some g)
          end = true
          ↔ match f_genre f with None => True | Some g => genre m = Some g end) as ->.
  { destruct (f_genre f); [|done]. by rewrite bool_decide_eq_true. }
  tauto.
Qed.

(** The filter of a query that can be run. *)
Lemma build_filter_runnable (q : gmap string string) :
  runnable q →
  ∃ f, VariantA.build_filter q = Ok f
       ∧ f_releaseYear f ≠ Some None
       ∧ ∀ m, matches f m = true
              ↔ title_matches q m ∧ releaseYear_matches q m ∧ genre_matches q m.
Proof.
  unfold runnable, VariantA.build_filter, title_matches, releaseYear_matches, genre_matches.
  intros [Ht Hy].
  destruct (JS.truthy (q !! "title")) as [t|]; [destruct Ht as [re Hre]; rewrite Hre|];
    (destruct (JS.truthy (q !! "releaseYear")) as [y|]; [destruct Hy as [n Hn]|]);
    (eexists; split; [reflexivity|]; simpl; rewrite ?Hn; split; [done|]);
    intros m; rewrite matches_iff; simpl; rewrite ?Hn; simpl.
  - split.
    + intros ((s & Hs & Hr) & Hk & Hg). eauto 10.
    + intros ((re' & s & [= <-] & Hs & Hr) & Hk & Hg). eauto 10.
  - split.
    + intros ((s & Hs & Hr) & _ & Hg). eauto 10.
    + intros ((re' & s & [= <-] & Hs & Hr) & _ & Hg). eauto 10.
  - done.
  - done.
Qed.

Lemma find_answers env (f : Filter) db :
  fault env = None → f_releaseYear f ≠ Some None →
  find env f db
  = (Ok (List.filter (λ d, matches f d.2) (map_to_list (docs db))), called CallFind db).
Proof.
  intros Hf Hn. unfold find. rewrite Hf.
  by destruct (f_releaseYear f) as [[k|]|].
Qed.

Lemma find_NaN env (f : Filter) db :
  f_releaseYear f = Some None →
  find env f db = (Throw (castError "releaseYear"), called CallFind db).
Proof. intros Hn. unfold find. by rewrite Hn. Qed.

Lemma elem_of_found (f : Filter) (docs : gmap string Movie) id m :
  (id, m) ∈ List.filter (λ d, matches f d.2) (map_to_list docs)
  ↔ docs !! id = Some m ∧ matches f m = true.
Proof.
  rewrite list_elem_of_In, filter_In, <- list_elem_of_In, elem_of_map_to_list. done.
Qed.

Lemma filter_all {A} (p : A → bool) (l : list A) :
  (∀ x, p x = true) → List.filter p l = l.
Proof. intros Hp. induction l as [|x l IH]; simpl; [done|]. by rewrite Hp, IH. Qed.

(** [parseInt] reads an integer below 2^53 in magnitude as it is. *)
Lemma nearest_safe (n : Z) : Z.abs n < 2 ^ 53 → JS.nearest n = JS.Finite n.
Proof.
  intros Hn. unfold JS.nearest.
  assert (Z.log2 (Z.abs n) - 52 <= 0) as ->%Z.leb_le; [|done].
  destruct (decide (Z.abs n = 0)) as [->|Hz]; [done|].
  assert (Z.log2 (Z.abs n) < 53); [|lia].
  apply Z.log2_lt_pow2; lia.
Qed.


(** C4, as the code has it.  A listing whose [releaseYear] parameter is
    present and not empty but starts with no number: [parseInt] gives [NaN]
    and the filter keeps it; the request is answered 500, by the handler in
    variant A and by the error middleware in variant B.  The filter is left
    out only for a parameter that is absent or empty. *)
Theorem non_numeric_releaseYear (env : Env) (req : Request) (db : Db) (y : string) :
  JS.truthy (query req !! "releaseYear") = Some y → JS.parseInt y = None →
  (∀ f, VariantA.build_filter (query req) = Ok f → f_releaseYear f = Some None)
  ∧ (∀ f, VariantB.build_filter (query req) = Ok f → f_releaseYear f = Some None)
  ∧ (VariantA.get_api_movies env req db).1
    = Reply (mkResponse 500 (Object [("error", "Server Error")]))
  ∧ (∃ e, (VariantB.on_error (VariantB.get_api_movies env req db)).1
          = Reply (mkResponse 500 (Object [
              ("error", "Server Error");
              ("message", if String.eqb (message e) "" then "Something went wrong"
                          else message e)])))
  ∧ docs (VariantA.get_api_movies env req db).2 = docs db
  ∧ docs (VariantB.get_api_movies env req db).2 = docs db.
Proof.
  intros Hy Hn.
  assert (Hnan : ∀ f, VariantA.build_filter (query req) = Ok f → f_releaseYear f = Some None).
  { unfold VariantA.build_filter. rewrite Hy. simpl. rewrite Hn. intros f.
    destruct (JS.truthy (query req !! "title")) as [t|];
      [destruct (RegExp_new_i t)|]; by intros [= <-]. }
  split; [done|]. split; [done|].
  unfold VariantA.get_api_movies, VariantB.get_api_movies.
  change (VariantB.build_filter (query req)) with (VariantA.build_filter (query req)).
  destruct (VariantA.build_filter (query req)) as [f|e] eqn:Hb.
  - rewrite find_NaN by auto. simpl. eauto 10.
  - simpl. eauto 10.
Qed.

End Listing.

(** ** Routing and errors in variant B *)

Section Routing.
Import Mongoose Express Props.
Context `{Platform}.

Lemma append_assoc (a b c : string) : (a +:+ b) +:+ c = a +:+ (b +:+ c).
Proof.
  induction a as [|x a IH]; [done|].
  change (String x ((a +:+ b) +:+ c) = String x (a +:+ (b +:+ c))). by rewrite IH.
Qed.

Lemma dispatch_skip (skipped rest : list Layer) env req db :
  Forall (λ l, takes l req = Passes) skipped →
  dispatch (skipped ++ rest) env req db = dispatch rest env req db.
Proof.
  induction 1 as [|l skipped Hl _ IH]; simpl; [done|]. by rewrite Hl.
Qed.

Lemma dispatch_passed (stack : list Layer) env req db :
  Forall (λ l, takes l req = Passes) stack →
  dispatch stack env req db = finalhandler env req db.
Proof.
  intros Hs. rewrite <- (app_nil_r stack). by rewrite dispatch_skip.
Qed.

(** Whether a layer takes a request rests on how it was registered. *)
Lemma passes_registration (l l' : Layer) (req : Request) :
  registration l = registration l' → takes l req = Passes → takes l' req = Passes.
Proof.
  unfold takes. intros <-. destruct (registration l) as [|mount|m pattern]; [done|..].
  - by destruct (match_mount _ _).
  - destruct (match_path _ _) as [bound|]; [|done].
    destruct (decode_params _ _); [|done]. by destruct (is_method _ _).
Qed.

Lemma routes_passed_in_A (bootYear : Z) (req : Request) :
  Forall (λ l, takes l req = Passes) (VariantB.routes bootYear) →
  Forall (λ l, takes l req = Passes) (VariantA.stack bootYear).
Proof.
  unfold VariantB.routes, VariantA.stack. rewrite !Forall_cons, !Forall_nil.
  intros (H1 & H2 & H3 & H4 & H5 & H6 & _).
  split; [exact (passes_registration _ _ req eq_refl H1)|].
  split; [exact (passes_registration _ _ req eq_refl H2)|].
  split; [exact (passes_registration _ _ req eq_refl H3)|].
  split; [exact (passes_registration _ _ req eq_refl H4)|].
  split; [exact (passes_registration _ _ req eq_refl H5)|].
  split; [exact (passes_registration _ _ req eq_refl H6)|done].
Qed.

(** C8, as the code has it.  In variant B, which registers the 404 handler: a
    request whose entity was read and that no route takes, no parameter
    failing to decode, is answered 404 with a JSON object of two fields,
    [error] and [message]; the message holds the method and the URL of the
    request, hence its path.  Variant A leaves such a request to the
    framework, which answers 404 with a page of its own.  A request whose
    entity cannot be read never reaches the 404 handler: in variant B the
    error middleware answers it 500.  Nothing is done to the collection. *)
Theorem unmatched_route_is_a_json_404 (bootYear : Z) (env : Env) (req : Request) (db : Db) :
  Forall (λ l, takes l req = Passes) (VariantB.routes bootYear) →
  (∃ text,
     VariantB.listen bootYear Readable env req db
       = (Reply (mkResponse 404 (Object [("error", "Not Found"); ("message", text)])), db)
     ∧ text = "Route " +:+ method req +:+ " " +:+ url req +:+ " not found"
     ∧ mentions text (method req)
     ∧ mentions text (path req))
  ∧ (method req ≠ "OPTIONS" →
     VariantA.listen bootYear Readable env req db = (Reply (mkResponse 404 Builtin), db))
  ∧ (∀ status e,
       VariantB.listen bootYear (Unreadable status e) env req db
       = (Reply (mkResponse 500 (Object [
            ("error", "Server Error");
            ("message", if String.eqb (message e) "" then "Something went wrong"
                        else message e)])), db)).
Proof.
  intros Hnone. split; [|split].
  - eexists. split; [|split; [reflexivity|split]].
    + unfold VariantB.listen, VariantB.app, VariantB.stack. by rewrite dispatch_skip.
    + by exists "Route ", (" " +:+ url req +:+ " not found").
    + exists ("Route " +:+ method req +:+ " "), (search req +:+ " not found").
      unfold url. by rewrite !append_assoc.
  - intros _. unfold VariantA.listen, VariantA.app.
    by rewrite dispatch_passed by by apply routes_passed_in_A.
  - done.
Qed.

(** What the error middleware of variant B makes of an error: status 500, the
    message of the error (or the stock text when it has none), and nothing of
    its stack. *)
Lemma error_handler_echoes (e : Error) :
  VariantB.error_handler e
  = mkResponse 500 (Object [
      ("error", "Server Error");
      ("message", if String.eqb (message e) "" then "Something went wrong"
                  else message e)]).
Proof. reflexivity. Qed.

Lemma error_handler_ignores_stack (m s1 s2 : string) :
  VariantB.error_handler (mkError m s1) = VariantB.error_handler (mkError m s2).
Proof. reflexivity. Qed.



End Routing.

(** ** Scenarios *)

Section Scenarios.
Import Mongoose Express Validator Props Sample.

(** C1 at a payload that holds a director only. *)
Lemma missing_title_witness :
  Express.body (request "POST" "/api/movies" [] [("director", JS.Str "Villeneuve")])
    !! "title" = None
  ∧ (rejects_naming "title" (VariantA.post_api_movies 2025) (quiet 2025)
       (request "POST" "/api/movies" [] [("director", JS.Str "Villeneuve")]) two_dunes
     ∧ rejects_naming "title" (VariantA.put_api_movies_id 2025) (quiet 2025)
         (request "POST" "/api/movies" [] [("director", JS.Str "Villeneuve")]) two_dunes
     ∧ rejects_naming "title" (VariantB.post_api_movies 2025) (quiet 2025)
         (request "POST" "/api/movies" [] [("director", JS.Str "Villeneuve")]) two_dunes
     ∧ rejects_naming "title" (VariantB.put_api_movies_id 2025) (quiet 2025)
         (request "POST" "/api/movies" [] [("director", JS.Str "Villeneuve")]) two_dunes).
Proof.
  split; [reflexivity|].
  apply (missing_title_is_rejected 2025). reflexivity.
Defined.

(** X1 at the year 1887, read by an array built in 2025. *)
Lemma releaseYear_range_witness :
  (list_to_map (arrival 1887) : payload) !! "releaseYear" = Some (JS.Number 1887)
  ∧ (names "releaseYear"
       (validationResult isURL_test (VariantA.post_validators 2025) (list_to_map (arrival 1887)))
     ↔ ¬ (1888 ≤ 1887 ≤ 2025)).
Proof.
  split; [reflexivity|].
  apply (releaseYear_range 2025 1887).
  - left. reflexivity.
  - unfold validator_arrays. left.
Defined.

(** C3 at its failing input.  The process started in 2025 and the request
    comes in 2026 with a movie of 2026: the four write handlers answer 400,
    [releaseYear] being the one violation. *)
Theorem releaseYear_bound_is_the_boot_year :
  now (quiet 2026) = 2026
  ∧ ∀ h, h ∈ [VariantA.post_api_movies 2025; VariantA.put_api_movies_id 2025;
              VariantB.post_api_movies 2025; VariantB.put_api_movies_id 2025] →
      h (quiet 2026) (request "POST" "/api/movies" [] (arrival 2026)) two_dunes
      = (Reply (mkResponse 400 (Errors [
           FieldError "releaseYear" "Release year must be valid" (Some (JS.Number 2026))])),
         two_dunes).
Proof.
  split; [reflexivity|]. intros h. rewrite !elem_of_cons, elem_of_nil.
  intros [->|[->|[->|[->|[]]]]]; by vm_compute.
Qed.

(** C5 at the first record of the sample collection. *)
Lemma delete_twice_witness :
  fault (quiet 2025) = None ∧ fault (quiet 2025) = None
  ∧ castObjectId (params (on_id "0123456789ABCDEF01234567" (request "DELETE"
        "/api/movies/0123456789ABCDEF01234567" [] [])) !!! "id")
    = Ok "0123456789abcdef01234567"
  ∧ docs two_dunes !! "0123456789abcdef01234567" = Some dune_2021
  ∧ ((∃ db1 db2,
        VariantA.delete_api_movies_id (quiet 2025)
          (on_id "0123456789ABCDEF01234567"
             (request "DELETE" "/api/movies/0123456789ABCDEF01234567" [] [])) two_dunes
          = (Reply (mkResponse 200 (Text "Movie deleted")), db1)
        ∧ docs db1 = delete "0123456789abcdef01234567" (docs two_dunes)
        ∧ VariantA.delete_api_movies_id (quiet 2025)
            (on_id "0123456789ABCDEF01234567"
               (request "DELETE" "/api/movies/0123456789ABCDEF01234567" [] [])) db1
          = (Reply (mkResponse 404 (Text "Movie not found")), db2)
        ∧ docs db2 = docs db1)
     ∧ (∃ db1 db2,
          VariantB.delete_api_movies_id (quiet 2025)
            (on_id "0123456789ABCDEF01234567"
               (request "DELETE" "/api/movies/0123456789ABCDEF01234567" [] [])) two_dunes
            = (Reply (mkResponse 200 (Object [("message", "Movie deleted")])), db1)
          ∧ docs db1 = delete "0123456789abcdef01234567" (docs two_dunes)
          ∧ VariantB.delete_api_movies_id (quiet 2025)
              (on_id "0123456789ABCDEF01234567"
                 (request "DELETE" "/api/movies/0123456789ABCDEF01234567" [] [])) db1
            = (Reply (mkResponse 404 (Object [("error", "Movie not found")])), db2)
          ∧ docs db2 = docs db1)).
Proof.
  split; [reflexivity|]. split; [reflexivity|]. split; [reflexivity|]. split; [reflexivity|].
  apply (delete_twice (quiet 2025) (quiet 2025) _ two_dunes "0123456789abcdef01234567" dune_2021);
    reflexivity.
Defined.

(** C6 refuted at the id [xyz]: variant B answers 500, which is neither 400
    nor 404 and no client error. *)
Lemma malformed_id_is_a_500_in_B :
  castObjectId "xyz" = Throw (cast_error "_id")
  ∧ has_status 500
      (VariantB.app 2025 (quiet 2025) (request "DELETE" "/api/movies/xyz" [] []) two_dunes).1
  ∧ ¬ has_status 404
      (VariantB.app 2025 (quiet 2025) (request "DELETE" "/api/movies/xyz" [] []) two_dunes).1
  ∧ ¬ has_status 400
      (VariantB.app 2025 (quiet 2025) (request "DELETE" "/api/movies/xyz" [] []) two_dunes).1
  ∧ ¬ client_error
      (VariantB.app 2025 (quiet 2025) (request "DELETE" "/api/movies/xyz" [] []) two_dunes).1.
Proof.
  split; [reflexivity|].
  assert ((VariantB.app 2025 (quiet 2025) (request "DELETE" "/api/movies/xyz" [] [])
             two_dunes).1
          = Reply (mkResponse 500 (Object [("error", "Server Error");
                                           ("message", "Cast failed at path _id")]))) as ->
    by reflexivity.
  split; [by eexists|].
  repeat split; intros (r & [= <-] & Hs); simpl in Hs; lia.
Qed.

(** C6, as amended, at the id [xyz]. *)
Lemma malformed_id_on_delete_witness :
  castObjectId (params (on_id "xyz" (request "DELETE" "/api/movies/xyz" [] [])) !!! "id")
    = Throw (cast_error "_id")
  ∧ (VariantA.delete_api_movies_id (quiet 2025)
       (on_id "xyz" (request "DELETE" "/api/movies/xyz" [] [])) two_dunes
     = (Reply (mkResponse 400 (Text "Invalid ID")), called CallFindByIdAndDelete two_dunes)
     ∧ VariantB.on_error (VariantB.delete_api_movies_id (quiet 2025)
         (on_id "xyz" (request "DELETE" "/api/movies/xyz" [] [])) two_dunes)
       = (Reply (mkResponse 500 (Object [
            ("error", "Server Error");
            ("message", if String.eqb (message (cast_error "_id")) ""
                        then "Something went wrong" else message (cast_error "_id"))])),
          called CallFindByIdAndDelete two_dunes)).
Proof.
  split; [reflexivity|].
  apply (malformed_id_on_delete (quiet 2025) _ two_dunes (cast_error "_id")). reflexivity.
Defined.

(** C8 refuted at [PATCH /api/movies]: no route takes the request, and
    variant A answers with the page of the framework, which is no JSON object
    and names neither the method nor the path; and at the same request with
    an entity that is no JSON, which variant B answers 500. *)
Lemma unmatched_route_in_A_is_a_page :
  Forall (λ l, takes l (request "PATCH" "/api/movies" [] []) = Passes) (VariantA.stack 2025)
  ∧ VariantA.listen 2025 Readable (quiet 2025) (request "PATCH" "/api/movies" [] []) two_dunes
    = (Reply (mkResponse 404 Builtin), two_dunes)
  ∧ VariantB.listen 2025 Cases.not_json (quiet 2025)
      (request "PATCH" "/api/movies" [] []) two_dunes
    = (Reply (mkResponse 500 (Object [
         ("error", "Server Error");
         ("message", "Unexpected token } in JSON at position 1")])), two_dunes).
Proof.
  split; [|split; reflexivity].
  repeat first [apply Forall_nil_2 | apply Forall_cons_2; [reflexivity|]].
Qed.

(** C8, as amended, at [PATCH /api/movies]. *)
Lemma unmatched_route_witness :
  Forall (λ l, takes l (request "PATCH" "/api/movies" [] []) = Passes) (VariantB.routes 2025)
  ∧ ((∃ text,
        VariantB.listen 2025 Readable (quiet 2025) (request "PATCH" "/api/movies" [] [])
          two_dunes
          = (Reply (mkResponse 404 (Object [("error", "Not Found"); ("message", text)])),
             two_dunes)
        ∧ text = "Route " +:+ method (request "PATCH" "/api/movies" [] []) +:+ " "
                 +:+ url (request "PATCH" "/api/movies" [] []) +:+ " not found"
        ∧ mentions text (method (request "PATCH" "/api/movies" [] []))
        ∧ mentions text (path (request "PATCH" "/api/movies" [] [])))
     ∧ (method (request "PATCH" "/api/movies" [] []) ≠ "OPTIONS" →
        VariantA.listen 2025 Readable (quiet 2025) (request "PATCH" "/api/movies" [] [])
          two_dunes
        = (Reply (mkResponse 404 Builtin), two_dunes))
     ∧ (∀ status e,
          VariantB.listen 2025 (Unreadable status e) (quiet 2025)
            (request "PATCH" "/api/movies" [] []) two_dunes
          = (Reply (mkResponse 500 (Object [
               ("error", "Server Error");
               ("message", if String.eqb (message e) "" then "Something went wrong"
                           else message e)])), two_dunes))).
Proof.
  assert (Hnone : Forall (λ l, takes l (request "PATCH" "/api/movies" [] []) = Passes)
                    (VariantB.routes 2025))
    by (repeat first [apply Forall_nil_2 | apply Forall_cons_2; [reflexivity|]]).
  split; [exact Hnone|].
  exact (unmatched_route_is_a_json_404 2025 (quiet 2025) _ two_dunes Hnone).
Defined.



(** C4 refuted at [releaseYear=abc]: the request is answered 500 in both
    variants, where the request without the parameter is answered 200 with
    the records. *)
Lemma non_numeric_releaseYear_is_not_left_out :
  (VariantA.app 2025 (quiet 2025)
     (request "GET" "/api/movies" [("releaseYear", "abc")] []) two_dunes).1
  = Reply (mkResponse 500 (Object [("error", "Server Error")]))
  ∧ (VariantB.app 2025 (quiet 2025)
       (request "GET" "/api/movies" [("releaseYear", "abc")] []) two_dunes).1
    = Reply (mkResponse 500 (Object [("error", "Server Error");
                                     ("message", "Cast failed at path releaseYear")]))
  ∧ (VariantA.app 2025 (quiet 2025) (request "GET" "/api/movies" [] []) two_dunes).1
    = Reply (mkResponse 200 (Movies [("0123456789abcdef01234567", dune_2021);
                                     ("0123456789abcdef01234568", dune_1984)]))
  ∧ (VariantB.app 2025 (quiet 2025) (request "GET" "/api/movies" [] []) two_dunes).1
    = Reply (mkResponse 200 (Movies [("0123456789abcdef01234567", dune_2021);
                                     ("0123456789abcdef01234568", dune_1984)]))
  ∧ VariantA.build_filter (list_to_map [("releaseYear", "abc")])
    = Ok {| f_title := None; f_releaseYear := Some None; f_genre := None |}.
Proof. repeat split; by vm_compute. Qed.

(** C4, as amended, at [releaseYear=abc]. *)
Lemma non_numeric_releaseYear_witness :
  JS.truthy (query (request "GET" "/api/movies" [("releaseYear", "abc")] []) !! "releaseYear")
    = Some "abc"
  ∧ JS.parseInt "abc" = None
  ∧ ((∀ f, VariantA.build_filter
             (query (request "GET" "/api/movies" [("releaseYear", "abc")] [])) = Ok f →
           f_releaseYear f = Some None)
     ∧ (∀ f, VariantB.build_filter
               (query (request "GET" "/api/movies" [("releaseYear", "abc")] [])) = Ok f →
             f_releaseYear f = Some None)
     ∧ (VariantA.get_api_movies (quiet 2025)
          (request "GET" "/api/movies" [("releaseYear", "abc")] []) two_dunes).1
       = Reply (mkResponse 500 (Object [("error", "Server Error")]))
     ∧ (∃ e, (VariantB.on_error (VariantB.get_api_movies (quiet 2025)
                (request "GET" "/api/movies" [("releaseYear", "abc")] []) two_dunes)).1
             = Reply (mkResponse 500 (Object [
                 ("error", "Server Error");
                 ("message", if String.eqb (message e) "" then "Something went wrong"
                             else message e)])))
     ∧ docs (VariantA.get_api_movies (quiet 2025)
               (request "GET" "/api/movies" [("releaseYear", "abc")] []) two_dunes).2
       = docs two_dunes
     ∧ docs (VariantB.get_api_movies (quiet 2025)
               (request "GET" "/api/movies" [("releaseYear", "abc")] []) two_dunes).2
       = docs two_dunes).
Proof.
  split; [reflexivity|]. split; [reflexivity|].
  apply (non_numeric_releaseYear (quiet 2025)
           (request "GET" "/api/movies" [("releaseYear", "abc")] []) two_dunes "abc");
    reflexivity.
Defined.

(** C7 at its failing input.  Variant A, a valid create while the database
    fails with [e]: the handler's promise is rejected with [e] and the
    application has no answer, where variant B answers through its error
    middleware. *)
Theorem create_failure_is_not_caught_in_A (e : Error) :
  VariantA.app 2025 (failing e 2025) (request "POST" "/api/movies" [] (arrival 2016)) two_dunes
  = (Rejected e, called CallSave two_dunes)
  ∧ VariantB.app 2025 (failing e 2025) (request "POST" "/api/movies" [] (arrival 2016)) two_dunes
    = (Reply (mkResponse 500 (Object [
         ("error", "Server Error");
         ("message", if String.eqb (message e) "" then "Something went wrong"
                     else message e)])),
       called CallSave two_dunes).
Proof. split; by vm_compute. Qed.


End Scenarios.

(** ** Valid payloads and the documents they make *)

Section ValidPayloads.
Import Mongoose Express Validator Props Data.
Context `{Platform}.

Lemma notEmpty_castString (v : option JS.scalar) :
  check isURL_test NotEmpty (toString v) = true →
  castString v = Some (toString v) ∧ toString v ≠ "" ∧ v ≠ None.
Proof.
  intros Hs.
  assert (Hne : toString v ≠ "") by (intros He; by rewrite He in Hs).
  by destruct v as [[|b|n|s]|].
Qed.

Lemma isInt_castNumber (bootYear : Z) (v : option JS.scalar) :
  check isURL_test (IsInt 1888 bootYear) (toString v) = true →
  ∃ n, castNumber v = Ok (Some n) ∧ 1888 ≤ n ≤ bootYear ∧ v ≠ None.
Proof.
  destruct v as [[|[]|n|s]|]; try done.
  - change (toString (Some (JS.Number n))) with (pretty n).
    rewrite check_isInt_pretty, bool_decide_eq_true. intros Hn. by exists n.
  - change (toString (Some (JS.Str s))) with s. simpl.
    rewrite !andb_true_iff, !Z.leb_le. intros [[Hp Hlo] Hhi].
    exists (int_value s). destruct s as [|c s]; [done|].
    simpl String.eqb. cbv iota. rewrite Hp. done.
Qed.

Lemma image_castString (v : option JS.scalar) (u : string) :
  v = None ∨ check isURL_test IsURL (toString v) = true →
  castString v = Some u → isURL_test u = true.
Proof.
  destruct v as [[|b|n|s]|]; simpl; try done; intros [?|Hu] [= <-]; done.
Qed.

(** A payload that passes validation casts to one document, whatever it
    replaces, and the document is well formed when the image it keeps is. *)
Lemma valid_updated (bootYear : Z) (b : payload) (m : Movie) :
  valid bootYear b →
  ∃ n, castNumber (b !! "releaseYear") = Ok (Some n)
       ∧ apply_update b m = Ok (updated b (Some n) m)
       ∧ new b = Ok (updated b (Some n) {| title := None; director := None;
                                           releaseYear := None; genre := None;
                                           image := None |})
       ∧ ((∀ u, image m = Some u → isURL_test u = true) →
          well_formed bootYear (updated b (Some n) m)).
Proof.
  intros (Ht & Hd & Hy & Hg & Hi).
  destruct (isInt_castNumber _ _ Hy) as (n & Hn & Hrange & Hyv).
  destruct (notEmpty_castString _ Ht) as (Htc & Htne & Htv).
  destruct (notEmpty_castString _ Hd) as (Hdc & Hdne & Hdv).
  assert (Hgne : check isURL_test NotEmpty (toString (b !! "genre")) = true)
    by (apply (check_isIn_notEmpty isURL_test genres); [apply genres_not_empty|done]).
  destruct (notEmpty_castString _ Hgne) as (Hgc & Hgn & Hgv).
  exists n. split; [done|]. split; [|split].
  - unfold apply_update, updated, set_path. rewrite Hn.
    destruct (b !! "title"), (b !! "director"), (b !! "releaseYear"), (b !! "genre");
      done.
  - unfold new, updated. rewrite Hn. by destruct (b !! "image").
  - intros Hold. unfold well_formed, updated. simpl.
    split; [eauto|]. split; [eauto|]. split; [eauto|]. split.
    + exists (toString (b !! "genre")). split; [done|].
      simpl in Hg. by apply bool_decide_eq_true in Hg.
    + intros u. destruct (b !! "image") as [v|] eqn:Hv; [|apply Hold].
      apply image_castString. by rewrite <- Hv in *.
Qed.

End ValidPayloads.

(** ** Creating and updating *)

Section Writes.
Import Mongoose Express Validator Props Data.
Context `{Platform}.

Lemma save_fresh env (m : Movie) db :
  fault env = None → docs db !! newId env = None →
  save env (Ok m) db
  = (Ok (newId env, m),
     {| docs := <[newId env := m]> (docs db); calls := calls db ++ [CallSave] |}).
Proof. intros Hf Hn. unfold save. rewrite Hf. simpl. by rewrite Hn. Qed.

Lemma listing_unfiltered env req db :
  fault env = None →
  JS.truthy (query req !! "title") = None →
  JS.truthy (query req !! "releaseYear") = None →
  JS.truthy (query req !! "genre") = None →
  VariantA.get_api_movies env req db
    = (Reply (mkResponse 200 (Movies (map_to_list (docs db)))), called CallFind db)
  ∧ VariantB.get_api_movies env req db
    = (Reply (mkResponse 200 (Movies (map_to_list (docs db)))), called CallFind db).
Proof.
  intros Hf Ht Hy Hg.
  unfold VariantA.get_api_movies, VariantB.get_api_movies,
    VariantA.build_filter, VariantB.build_filter, find.
  rewrite Ht, Hy, Hg, Hf. simpl. by rewrite filter_all.
Qed.


(** X4.  Creating a movie, from a valid payload that holds no field besides
    the paths of the schema, and deleting it again by the id it was given
    leaves the documents of the collection as they were, in both variants. *)
Theorem create_then_delete (bootYear : Z) (env env' : Env) (req req' : Request) (db : Db) :
  valid bootYear (Express.body req) →
  only_schema_paths (Express.body req) →
  fault env = None → docs db !! newId env = None →
  fault env' = None → castObjectId (params req' !!! "id") = Ok (newId env) →
  (∃ r db1 db2,
     VariantA.post_api_movies bootYear env req db = (Reply r, db1)
     ∧ status r = 201
     ∧ VariantA.delete_api_movies_id env' req' db1
       = (Reply (mkResponse 200 (Text "Movie deleted")), db2)
     ∧ docs db2 = docs db)
  ∧ (∃ r db1 db2,
       VariantB.post_api_movies bootYear env req db = (Reply r, db1)
       ∧ status r = 201
       ∧ VariantB.delete_api_movies_id env' req' db1
         = (Reply (mkResponse 200 (Object [("message", "Movie deleted")])), db2)
       ∧ docs db2 = docs db).
Proof.
  intros Hv _ Hf Hfresh Hf' Hid.
  destruct (valid_updated bootYear (Express.body req)
              {| title := None; director := None; releaseYear := None;
                 genre := None; image := None |} Hv) as (n & _ & _ & Hnew & _).
  unfold VariantA.post_api_movies, VariantB.post_api_movies,
    VariantA.delete_api_movies_id, VariantB.delete_api_movies_id.
  rewrite (proj2 (post_validators_A_nil bootYear _) Hv),
    (proj2 (post_validators_B_nil bootYear _) Hv), Hnew, save_fresh by done.
  split; eexists; eexists; eexists; (split; [reflexivity|]); (split; [reflexivity|]);
    erewrite findByIdAndDelete_found by (try done; apply lookup_insert_eq);
    (split; [reflexivity|]); simpl; by apply delete_insert_id.
Qed.





(** X8.  Deleting a record and listing: after a delete that is answered
    200, a listing without parameters returns the other records and no longer
    the deleted one, in both variants. *)
Theorem delete_then_list
    (env env' : Env) (req req' : Request) (db : Db) (oid : string) (m : Movie) :
  fault env = None → fault env' = None →
  castObjectId (params req !!! "id") = Ok oid →
  docs db !! oid = Some m →
  JS.truthy (query req' !! "title") = None →
  JS.truthy (query req' !! "releaseYear") = None →
  JS.truthy (query req' !! "genre") = None →
  (∃ db1 movies,
     VariantA.delete_api_movies_id env req db
       = (Reply (mkResponse 200 (Text "Movie deleted")), db1)
     ∧ VariantA.get_api_movies env' req' db1
       = (Reply (mkResponse 200 (Movies movies)), called CallFind db1)
     ∧ ∀ id x, (id, x) ∈ movies ↔ id ≠ oid ∧ docs db !! id = Some x)
  ∧ (∃ db1 movies,
       VariantB.delete_api_movies_id env req db
         = (Reply (mkResponse 200 (Object [("message", "Movie deleted")])), db1)
       ∧ VariantB.get_api_movies env' req' db1
         = (Reply (mkResponse 200 (Movies movies)), called CallFind db1)
       ∧ ∀ id x, (id, x) ∈ movies ↔ id ≠ oid ∧ docs db !! id = Some x).
Proof.
  intros Hf Hf' Hid Hm Ht Hy Hg.
  set (db1 := {| docs := delete oid (docs db);
                 calls := calls db ++ [CallFindByIdAndDelete] |}).
  destruct (listing_unfiltered env' req' db1 Hf' Ht Hy Hg) as [HA HB].
  unfold VariantA.delete_api_movies_id, VariantB.delete_api_movies_id.
  rewrite (findByIdAndDelete_found env _ db oid m) by done. fold db1.
  split; exists db1, (map_to_list (docs db1)); (split; [reflexivity|]);
    (split; [done|]); intros id x; rewrite elem_of_map_to_list; unfold db1; simpl;
    rewrite lookup_delete_Some; intuition congruence.
Qed.

(** X9.  A delete that removes nothing changes nothing.  An id no record
    has is answered 404 by both variants.  When the database fails on a
    well-formed id, variant A still answers 400 [Invalid ID], its handler
    having one answer for every error, and variant B answers 500 with the
    message of the failure. *)
Theorem delete_without_a_record (env : Env) (req : Request) (db : Db) (oid : string) :
  castObjectId (params req !!! "id") = Ok oid →
  (fault env = None → docs db !! oid = None →
   VariantA.delete_api_movies_id env req db
     = (Reply (mkResponse 404 (Text "Movie not found")), called CallFindByIdAndDelete db)
   ∧ VariantB.delete_api_movies_id env req db
     = (Reply (mkResponse 404 (Object [("error", "Movie not found")])),
        called CallFindByIdAndDelete db))
  ∧ (∀ e, fault env = Some e →
       VariantA.delete_api_movies_id env req db
         = (Reply (mkResponse 400 (Text "Invalid ID")), called CallFindByIdAndDelete db)
       ∧ VariantB.on_error (VariantB.delete_api_movies_id env req db)
         = (Reply (mkResponse 500 (Object [
              ("error", "Server Error");
              ("message", if String.eqb (message e) "" then "Something went wrong"
                          else message e)])),
            called CallFindByIdAndDelete db)).
Proof.
  intros Hid.
  unfold VariantA.delete_api_movies_id, VariantB.delete_api_movies_id, findByIdAndDelete.
  rewrite Hid. split.
  - intros Hf Hm. rewrite Hf. simpl. by rewrite Hm.
  - intros e Hf. by rewrite Hf.
Qed.


End Writes.

(** ** What validation reports *)

Section Reports.
Import Mongoose Express Validator Props Data.
Context `{Platform}.
Variable bootYear : Z.

Lemma elem_of_run_chain_iff (b : payload) (c : chain) (e : ValidationError) :
  e ∈ run_chain isURL_test b c
  ↔ ¬ (chain_optional c = true ∧ b !! chain_path c = None)
    ∧ ∃ s, s ∈ chain_steps c
           ∧ check isURL_test (step_validator s) (toString (b !! chain_path c)) = false
           ∧ e = FieldError (chain_path c) (step_message s) (b !! chain_path c).
Proof.
  unfold run_chain.
  assert (e ∈ flat_map (run_step isURL_test (chain_path c) (b !! chain_path c)) (chain_steps c)
          ↔ ∃ s, s ∈ chain_steps c
                 ∧ check isURL_test (step_validator s) (toString (b !! chain_path c)) = false
                 ∧ e = FieldError (chain_path c) (step_message s) (b !! chain_path c)) as Hflat.
  { rewrite list_elem_of_In, in_flat_map. setoid_rewrite <- list_elem_of_In.
    unfold run_step. split; intros (s & Hs & He); exists s; (split; [done|]).
    - destruct (check _ _ _); [by apply elem_of_nil in He|].
      by apply list_elem_of_singleton in He.
    - destruct He as [-> ->]. left. }
  destruct (chain_optional c); simpl.
  - case_bool_decide as Hv.
    + split; [by intros ?%elem_of_nil|]. intros [Hn _]. destruct Hn. done.
    + rewrite Hflat. intuition.
  - rewrite Hflat. intuition discriminate.
Qed.

Ltac pick_array H :=
  unfold validator_arrays in H; rewrite !elem_of_cons, elem_of_nil in H;
  destruct H as [->|[->|[->|[->|[]]]]];
  rewrite ?put_validators_A_eq, ?put_validators_B_eq.

Ltac chain_of_field :=
  erewrite names_unique by reflexivity;
  rewrite run_chain_nil; cbn - [check toString];
  repeat rewrite Forall_cons; repeat rewrite Forall_nil; cbn - [check toString].

Lemma names_director cs (b : payload) :
  cs ∈ validator_arrays bootYear →
  names "director" (validationResult isURL_test cs b)
  ↔ check isURL_test NotEmpty (toString (b !! "director")) = false.
Proof.
  intros Hcs. rewrite <- not_true_iff_false.
  pick_array Hcs; chain_of_field; intuition congruence.
Qed.

Lemma names_genre cs (b : payload) :
  cs ∈ validator_arrays bootYear →
  names "genre" (validationResult isURL_test cs b)
  ↔ check isURL_test (IsIn genres) (toString (b !! "genre")) = false.
Proof.
  intros Hcs.
  pose proof (check_isIn_notEmpty isURL_test genres (toString (b !! "genre"))
                genres_not_empty).
  rewrite <- not_true_iff_false.
  pick_array Hcs; chain_of_field; fold genres; intuition congruence.
Qed.

(** The paths the validator arrays check. *)
Lemma paths_of_arrays cs (c : chain) :
  cs ∈ validator_arrays bootYear → c ∈ cs →
  chain_path c ∈ ["title"; "director"; "releaseYear"; "genre"; "image"].
Proof.
  intros Hcs Hc. pick_array Hcs;
    unfold VariantA.post_validators, VariantB.post_validators,
      VariantA.put_validators, VariantB.put_validators in Hc;
    rewrite !elem_of_cons, elem_of_nil in Hc;
    destruct Hc as [->|[->|[->|[->|[->|[]]]]]]; cbn; rewrite !elem_of_cons; auto 10.
Qed.

Lemma arrays_differ :
  VariantB.post_validators bootYear
  ∉ [VariantA.post_validators bootYear; VariantA.put_validators bootYear].
Proof. rewrite !elem_of_cons, elem_of_nil. by intros [[=]|[[=]|[]]]. Qed.

(** X10.  What the violations of a payload of scalar fields name, for each
    of the four validator arrays: [title] when its text is empty, and in
    variant A also when [isLength({ min: 1 })] refuses it; [director] when
    its text is empty; [releaseYear] when [isInt] refuses it; [genre] when
    it is none of the list; [image] when it is there and [isURL] refuses it.
    Every violation is on one of these five fields and carries the value the
    payload has there. *)
Theorem violations_name_the_failing_fields (cs : list chain) (b : payload) :
  cs ∈ validator_arrays bootYear →
  (names "title" (validationResult isURL_test cs b)
   ↔ toString (b !! "title") = ""
     ∨ (cs ∈ [VariantA.post_validators bootYear; VariantA.put_validators bootYear]
        ∧ check isURL_test (IsLength 1) (toString (b !! "title")) = false))
  ∧ (names "director" (validationResult isURL_test cs b) ↔ toString (b !! "director") = "")
  ∧ (names "releaseYear" (validationResult isURL_test cs b)
     ↔ check isURL_test (IsInt 1888 bootYear) (toString (b !! "releaseYear")) = false)
  ∧ (names "genre" (validationResult isURL_test cs b) ↔ toString (b !! "genre") ∉ genres)
  ∧ (names "image" (validationResult isURL_test cs b)
     ↔ ∃ v, b !! "image" = Some v ∧ isURL_test (toString (Some v)) = false)
  ∧ (∀ e, e ∈ validationResult isURL_test cs b →
       err_path e ∈ ["title"; "director"; "releaseYear"; "genre"; "image"]
       ∧ err_value e = b !! err_path e).
Proof.
  intros Hcs.
  assert (Hempty : ∀ s, check isURL_test NotEmpty s = false ↔ s = "").
  { intros s. simpl. rewrite negb_false_iff. split.
    - by intros ->%String.eqb_eq.
    - by intros ->. }
  split.
  { rewrite <- Hempty.
    assert (HB := arrays_differ).
    assert (HA : VariantA.post_validators bootYear
                 ∈ [VariantA.post_validators bootYear; VariantA.put_validators bootYear])
      by left.
    assert (HA' : VariantA.post_validators bootYear
                  ∈ [VariantA.post_validators bootYear; VariantA.post_validators bootYear])
      by left.
    rewrite <- !not_true_iff_false.
    pick_array Hcs; chain_of_field;
      destruct (check isURL_test NotEmpty _), (check isURL_test (IsLength 1) _);
      intuition congruence. }
  split; [by rewrite names_director, Hempty|].
  split; [by rewrite (names_releaseYear bootYear)|].
  split; [rewrite names_genre by done; simpl; by rewrite bool_decide_eq_false|].
  split; [by apply (names_image bootYear)|].
  intros e (c & Hc & He)%elem_of_validationResult.
  destruct (elem_of_run_chain _ _ _ _ He) as (-> & -> & _).
  split; [|done]. by apply (paths_of_arrays cs).
Qed.

(** X11.  The validator arrays of variant B report nothing that those of
    variant A do not: every violation of variant B, with its path, message and
    value, is a violation of variant A on the same payload.  The other way
    round, a violation of variant A is on a field that variant B reports
    too, unless it is the one of [isLength({ min: 1 })] on the title, a check
    variant B does not make. *)
Theorem violations_of_B_are_violations_of_A (b : payload) :
  (∀ e, e ∈ validationResult isURL_test (VariantB.post_validators bootYear) b →
        e ∈ validationResult isURL_test (VariantA.post_validators bootYear) b)
  ∧ (∀ e, e ∈ validationResult isURL_test (VariantB.put_validators bootYear) b →
          e ∈ validationResult isURL_test (VariantA.put_validators bootYear) b)
  ∧ (∀ e, e ∈ validationResult isURL_test (VariantA.post_validators bootYear) b →
          names (err_path e) (validationResult isURL_test (VariantB.post_validators bootYear) b)
          ∨ err_msg e = "Title must be at least 1 character")
  ∧ (∀ e, e ∈ validationResult isURL_test (VariantA.put_validators bootYear) b →
          names (err_path e) (validationResult isURL_test (VariantB.put_validators bootYear) b)
          ∨ err_msg e = "Title must be at least 1 character").
Proof.
  assert (Hsub : ∀ e, e ∈ validationResult isURL_test (VariantB.post_validators bootYear) b →
                      e ∈ validationResult isURL_test (VariantA.post_validators bootYear) b).
  { intros e (c & Hc & He)%elem_of_validationResult.
    apply elem_of_validationResult.
    unfold VariantB.post_validators in Hc.
    rewrite !elem_of_cons, elem_of_nil in Hc.
    destruct Hc as [->|[->|[->|[->|[->|[]]]]]];
      apply elem_of_run_chain_iff in He as (Hopt & s & Hs & Hck & ->);
      cbn in Hs; rewrite !elem_of_cons, elem_of_nil in Hs;
      destruct Hs as [->|[]].
    - eexists. split; [unfold VariantA.post_validators; left|].
      apply elem_of_run_chain_iff. split; [by intros [? _]|].
      eexists. split; [cbn; left|]. by split.
    - eexists. split; [unfold VariantA.post_validators; right; left|].
      apply elem_of_run_chain_iff. split; [by intros [? _]|].
      eexists. split; [cbn; left|]. by split.
    - eexists. split; [unfold VariantA.post_validators; do 2 right; left|].
      apply elem_of_run_chain_iff. split; [by intros [? _]|].
      eexists. split; [cbn; right; left|]. by split.
    - eexists. split; [unfold VariantA.post_validators; do 3 right; left|].
      apply elem_of_run_chain_iff. split; [by intros [? _]|].
      eexists. split; [cbn; right; left|]. by split.
    - eexists. split; [unfold VariantA.post_validators; do 4 right; left|].
      apply elem_of_run_chain_iff. split; [exact Hopt|].
      eexists. split; [cbn; left|]. by split. }
  assert (HB : VariantB.post_validators bootYear ∈ validator_arrays bootYear)
    by (do 2 right; left).
  assert (Hfails : ∀ p (v : validator) m,
            filter (λ c, chain_path c = p) (VariantB.post_validators bootYear)
            = [Chain p false [Step v m]] →
            check isURL_test v (toString (b !! p)) = false →
            names p (validationResult isURL_test (VariantB.post_validators bootYear) b)).
  { intros p v m Hfilter Hck. rewrite (names_unique _ _ _ _ Hfilter), run_chain_nil.
    simpl. rewrite Forall_cons, Forall_nil. simpl. intros [[? _]|[? _]]; congruence. }
  assert (Hnames : ∀ e, e ∈ validationResult isURL_test (VariantA.post_validators bootYear) b →
            names (err_path e)
              (validationResult isURL_test (VariantB.post_validators bootYear) b)
            ∨ err_msg e = "Title must be at least 1 character").
  { intros e (c & Hc & He)%elem_of_validationResult.
    unfold VariantA.post_validators in Hc.
    rewrite !elem_of_cons, elem_of_nil in Hc.
    destruct Hc as [->|[->|[->|[->|[->|[]]]]]];
      apply elem_of_run_chain_iff in He as (Hopt & s & Hs & Hck & ->);
      cbn in Hs; rewrite !elem_of_cons, elem_of_nil in Hs; cbn [err_path err_msg].
    - destruct Hs as [->|[->|[]]]; [left|by right].
      by apply (Hfails "title" NotEmpty "Title is required").
    - destruct Hs as [->|[]]. left.
      by apply (Hfails "director" NotEmpty "Director is required").
    - left. apply (Hfails "releaseYear" (IsInt 1888 bootYear) "Release year must be valid");
        [done|].
      destruct Hs as [->|[->|[]]]; [|done].
      cbn in Hck. apply negb_false_iff, String.eqb_eq in Hck. cbn. by rewrite Hck.
    - left. apply (names_genre _ b HB).
      destruct Hs as [->|[->|[]]]; [|done].
      cbn in Hck. apply negb_false_iff, String.eqb_eq in Hck. cbn. by rewrite Hck.
    - left. destruct Hs as [->|[]]. apply (names_image bootYear _ b HB).
      cbn in Hck, Hopt. destruct (b !! "image") as [v|] eqn:Hv; [by exists v|].
      destruct Hopt. done. }
  split; [done|]. split; [by rewrite put_validators_A_eq, put_validators_B_eq|].
  split; [done|]. by rewrite put_validators_A_eq, put_validators_B_eq.
Qed.

(** The model calls of the four write handlers on a payload that passed. *)
Lemma write_handlers_call (req : Request) (env : Env) (db : Db) (h : Handler) cs :
  (h, cs) ∈ write_handlers bootYear →
  validationResult isURL_test cs (Express.body req) = [] →
  ∃ c, calls (h env req db).2 = (calls db ++ [c])%list.
Proof.
  unfold write_handlers. rewrite !elem_of_cons, elem_of_nil.
  intros [[= -> ->]|[[= -> ->]|[[= -> ->]|[[= -> ->]|[]]]]] Hnil;
    unfold VariantA.post_api_movies, VariantA.put_api_movies_id,
      VariantB.post_api_movies, VariantB.put_api_movies_id; rewrite Hnil.
  - exists CallSave. unfold save.
    destruct (new _); [destruct (fault env); [|destruct (_ !! _)]|]; done.
  - exists CallFindByIdAndUpdate. unfold findByIdAndUpdate.
    destruct (castObjectId _); [destruct (castNumber _);
      [destruct (fault env); [|destruct (_ !! _); [destruct (apply_update _ _)|]]|]|]; done.
  - exists CallSave. unfold save.
    destruct (new _); [destruct (fault env); [|destruct (_ !! _)]|]; done.
  - exists CallFindByIdAndUpdate. unfold findByIdAndUpdate.
    destruct (castObjectId _); [destruct (castNumber _);
      [destruct (fault env); [|destruct (_ !! _); [destruct (apply_update _ _)|]]|]|]; done.
Qed.

(** X12.  Validation stands before the model in the four write handlers: a
    payload that passes leads to exactly one call of the model; any other
    payload is answered 400 with the whole list of its violations, and
    neither the collection nor the trace of model calls changes, whatever the
    id and whatever the state of the database. *)
Theorem validation_comes_first
    (h : Handler) (cs : list chain) (env : Env) (req : Request) (db : Db) :
  (h, cs) ∈ write_handlers bootYear →
  (valid bootYear (Express.body req) →
   validationResult isURL_test cs (Express.body req) = []
   ∧ ∃ c, calls (h env req db).2 = (calls db ++ [c])%list)
  ∧ (¬ valid bootYear (Express.body req) →
     validationResult isURL_test cs (Express.body req) ≠ []
     ∧ h env req db
       = (Reply (mkResponse 400
            (Errors (validationResult isURL_test cs (Express.body req)))), db)).
Proof.
  intros Hh.
  pose proof (validator_arrays_nil bootYear cs (Express.body req)
                (write_handlers_arrays bootYear h cs Hh)) as Hnil.
  split.
  - intros Hv. apply Hnil in Hv. split; [done|]. by apply (write_handlers_call req env db h cs).
  - intros Hv. assert (Hne : validationResult isURL_test cs (Express.body req) ≠ [])
      by (by rewrite Hnil).
    split; [done|].
    destruct (write_handlers_reject bootYear req env db) as (H1 & H2 & H3 & H4).
    unfold write_handlers in Hh. rewrite !elem_of_cons, elem_of_nil in Hh.
    destruct Hh as [[= -> ->]|[[= -> ->]|[[= -> ->]|[[= -> ->]|[]]]]]; auto.
Qed.

End Reports.

(** ** What a request may do *)

Section Effects.
Import Mongoose Express Validator Props Data.
Context `{Platform}.
Variable bootYear : Z.

Lemma dispatch_cases (stack : list Layer) env req db :
  (∃ l req', l ∈ stack ∧ takes l req = Takes req'
             ∧ dispatch stack env req db = handle l env req' db)
  ∨ dispatch stack env req db = finalhandler env req db
  ∨ (∃ l e, l ∈ stack ∧ takes l req = Fails e ∧ dispatch stack env req db = (Next e, db)).
Proof.
  induction stack as [|l stack IH]; simpl; [right; by left|].
  destruct (takes l req) as [|req'|e] eqn:Ht.
  - destruct IH as [(l' & req' & Hl & Ht' & Hd)|[Hd|(l' & e & Hl & Ht' & Hd)]].
    + left. exists l', req'. split; [by right|done].
    + right. by left.
    + right. right. exists l', e. split; [by right|done].
  - left. exists l, req'. split; [left|done].
  - right. right. exists l, e. split; [left|done].
Qed.

Lemma takes_keeps (l : Layer) (req req' : Request) :
  takes l req = Takes req' →
  Express.body req' = Express.body req ∧ query req' = query req
  ∧ method req' = method req ∧ path req' = path req ∧ search req' = search req.
Proof.
  unfold takes. destruct (registration l) as [|mount|m pattern].
  - by intros [= <-].
  - destruct (match_mount _ _); [|done]. by intros [= <-].
  - destruct (match_path _ _); [|done]. destruct (decode_params _ _); [|done].
    destruct (is_method _ _); [|done]. by intros [= <-].
Qed.

Lemma effect_none (db : Db) (o : Outcome) : effect bootYear db db o.
Proof. split; by left. Qed.

Lemma effect_called (db : Db) (c : Call) (o : Outcome) :
  effect bootYear db (called c db) o.
Proof. split; [by left|]. right. by exists c. Qed.

Lemma find_effect env (f : Filter) db :
  (find env f db).2 = called CallFind db.
Proof.
  unfold find. destruct (f_releaseYear f) as [[n|]|]; [|done|]; by destruct (fault env).
Qed.

Lemma get_A_keeps : keeps bootYear VariantA.get_api_movies.
Proof.
  intros env req db. unfold VariantA.get_api_movies.
  destruct (VariantA.build_filter (query req)) as [f|e]; [|apply effect_none].
  pose proof (find_effect env f db) as Hf.
  destruct (find env f db) as [[movies|e] db']; simpl in *; subst db'; apply effect_called.
Qed.

Lemma get_B_keeps : keeps bootYear VariantB.get_api_movies.
Proof.
  intros env req db. unfold VariantB.get_api_movies.
  destruct (VariantB.build_filter (query req)) as [f|e]; [|apply effect_none].
  pose proof (find_effect env f db) as Hf.
  destruct (find env f db) as [[movies|e] db']; simpl in *; subst db'; apply effect_called.
Qed.

(** What [save] does with the document of a valid payload. *)
Lemma save_effect env (b : payload) db :
  valid bootYear b →
  (∃ m, save env (new b) db
        = (Ok (newId env, m),
           {| docs := <[newId env := m]> (docs db); calls := calls db ++ [CallSave] |})
        ∧ well_formed bootYear m ∧ fault env = None ∧ docs db !! newId env = None)
  ∨ (∃ e, save env (new b) db = (Throw e, called CallSave db)).
Proof.
  intros Hv.
  destruct (valid_updated bootYear b
              {| title := None; director := None; releaseYear := None;
                 genre := None; image := None |} Hv) as (n & _ & _ & Hnew & Hwf).
  rewrite Hnew. unfold save.
  destruct (fault env) as [e|] eqn:Hf; [right; by exists e|]. simpl.
  destruct (docs db !! newId env) eqn:Hn; [right; by eexists|].
  left. eexists. split; [done|]. split; [by apply Hwf|done].
Qed.

(** What [findByIdAndUpdate] does with a valid payload. *)
Lemma findByIdAndUpdate_effect env id (b : payload) db :
  valid bootYear b →
  (∃ oid m n, findByIdAndUpdate env id b db
      = (Ok (Some (oid, updated b (Some n) m)),
         {| docs := <[oid := updated b (Some n) m]> (docs db);
            calls := calls db ++ [CallFindByIdAndUpdate] |})
      ∧ docs db !! oid = Some m
      ∧ (all_well_formed bootYear (docs db) → well_formed bootYear (updated b (Some n) m)))
  ∨ findByIdAndUpdate env id b db = (Ok None, called CallFindByIdAndUpdate db)
  ∨ (∃ e, findByIdAndUpdate env id b db = (Throw e, called CallFindByIdAndUpdate db)).
Proof.
  intros Hv. unfold findByIdAndUpdate.
  destruct (castObjectId id) as [oid|e]; [|right; right; by exists e].
  destruct (isInt_castNumber bootYear (b !! "releaseYear")) as (n & Hn & _); [apply Hv|].
  rewrite Hn.
  destruct (fault env) as [e|]; [right; right; by exists e|]. simpl.
  destruct (docs db !! oid) as [m|] eqn:Hm; [|right; by left].
  destruct (valid_updated bootYear b m Hv) as (n' & Hn' & Hup & _ & Hwf).
  assert (n' = n) as -> by congruence.
  rewrite Hup. left. exists oid, m, n. split; [done|]. split; [done|].
  intros Hall. apply Hwf. by destruct (Hall oid m Hm) as (_ & _ & _ & _ & ?).
Qed.

Lemma findByIdAndDelete_effect env id db :
  (∃ oid m, findByIdAndDelete env id db
      = (Ok (Some (oid, m)),
         {| docs := delete oid (docs db); calls := calls db ++ [CallFindByIdAndDelete] |}))
  ∨ findByIdAndDelete env id db = (Ok None, called CallFindByIdAndDelete db)
  ∨ (∃ e, findByIdAndDelete env id db = (Throw e, called CallFindByIdAndDelete db)).
Proof.
  unfold findByIdAndDelete.
  destruct (castObjectId id) as [oid|e]; [|right; right; by exists e].
  destruct (fault env) as [e|]; [right; right; by exists e|]. simpl.
  destruct (docs db !! oid) as [m|]; [left; by exists oid, m|right; by left].
Qed.

Ltac stored :=
  split; [right; split; [eexists; split; [reflexivity|auto]|left; eauto]
         |right; eexists; reflexivity].

Ltac removed :=
  split; [right; split; [eexists; split; [reflexivity|auto]|right; eauto]
         |right; eexists; reflexivity].

Lemma post_A_keeps : keeps bootYear (VariantA.post_api_movies bootYear).
Proof.
  intros env req db. unfold VariantA.post_api_movies.
  destruct (validationResult _ _ _) eqn:Hr; [|apply effect_none].
  apply post_validators_A_nil in Hr.
  destruct (save_effect env _ db Hr) as [(m & -> & Hwf & _)|(e & ->)];
    [stored|apply effect_called].
Qed.

Lemma post_B_keeps : keeps bootYear (VariantB.post_api_movies bootYear).
Proof.
  intros env req db. unfold VariantB.post_api_movies.
  destruct (validationResult _ _ _) eqn:Hr; [|apply effect_none].
  apply post_validators_B_nil in Hr.
  destruct (save_effect env _ db Hr) as [(m & -> & Hwf & _)|(e & ->)];
    [stored|apply effect_called].
Qed.

Lemma put_A_keeps : keeps bootYear (VariantA.put_api_movies_id bootYear).
Proof.
  intros env req db. unfold VariantA.put_api_movies_id.
  destruct (validationResult _ _ _) eqn:Hr; [|apply effect_none].
  rewrite put_validators_A_eq in Hr. apply post_validators_A_nil in Hr.
  destruct (findByIdAndUpdate_effect env (params req !!! "id") _ db Hr)
    as [(oid & m & n & -> & Hm & Hwf)|[-> |(e & ->)]];
    [stored|apply effect_called..].
Qed.

Lemma put_B_keeps : keeps bootYear (VariantB.put_api_movies_id bootYear).
Proof.
  intros env req db. unfold VariantB.put_api_movies_id.
  destruct (validationResult _ _ _) eqn:Hr; [|apply effect_none].
  rewrite put_validators_B_eq in Hr. apply post_validators_B_nil in Hr.
  destruct (findByIdAndUpdate_effect env (params req !!! "id") _ db Hr)
    as [(oid & m & n & -> & Hm & Hwf)|[-> |(e & ->)]];
    [stored|apply effect_called..].
Qed.

Lemma delete_A_keeps : keeps bootYear VariantA.delete_api_movies_id.
Proof.
  intros env req db. unfold VariantA.delete_api_movies_id.
  destruct (findByIdAndDelete_effect env (params req !!! "id") db)
    as [(oid & m & ->)|[-> |(e & ->)]]; [removed|apply effect_called..].
Qed.

Lemma delete_B_keeps : keeps bootYear VariantB.delete_api_movies_id.
Proof.
  intros env req db. unfold VariantB.delete_api_movies_id.
  destruct (findByIdAndDelete_effect env (params req !!! "id") db)
    as [(oid & m & ->)|[-> |(e & ->)]]; [removed|apply effect_called..].
Qed.

Lemma dispatch_keeps (stack : list Layer) :
  (∀ l, l ∈ stack → keeps bootYear (handle l)) → keeps bootYear (dispatch stack).
Proof.
  intros Hall env req db.
  destruct (dispatch_cases stack env req db)
    as [(l & req' & Hl & _ & ->)|[-> |(l & e & _ & _ & ->)]].
  - by apply Hall.
  - apply effect_none.
  - apply effect_none.
Qed.

Lemma app_A_keeps : keeps bootYear (VariantA.app bootYear).
Proof.
  assert (Hd : keeps bootYear (dispatch (VariantA.stack bootYear))).
  { apply dispatch_keeps. intros l. unfold VariantA.stack.
    rewrite !elem_of_cons, elem_of_nil.
    intros [->|[->|[->|[->|[->|[->|[]]]]]]]; simpl;
      auto using get_A_keeps, post_A_keeps, put_A_keeps, delete_A_keeps;
      intros env req db; apply effect_none. }
  intros env req db. specialize (Hd env req db). unfold VariantA.app, VariantA.on_error.
  destruct (dispatch _ env req db) as [[r|e|e] db']; simpl in *; try done.
  destruct Hd as [[Hd|[(r & Hr & _) _]] Hc]; [|done]. split; [by left|done].
Qed.

Lemma app_B_keeps : keeps bootYear (VariantB.app bootYear).
Proof.
  assert (Hd : keeps bootYear (dispatch (VariantB.stack bootYear))).
  { apply dispatch_keeps. intros l. unfold VariantB.stack, VariantB.routes. simpl.
    rewrite !elem_of_cons, elem_of_nil.
    intros [->|[->|[->|[->|[->|[->|[->|[]]]]]]]]; simpl;
      auto using get_B_keeps, post_B_keeps, put_B_keeps, delete_B_keeps;
      intros env req db; apply effect_none. }
  intros env req db. specialize (Hd env req db). unfold VariantB.app.
  destruct (dispatch _ env req db) as [[r|e|e] db']; simpl in *; try done.
  destruct Hd as [[Hd|[(r & Hr & _) _]] Hc]; [|done]. split; [by left|done].
Qed.

End Effects.

(** ** The two applications, request by request *)

Section Applications.
Import Mongoose Express Validator Props Data.
Context `{Platform}.
Variable bootYear : Z.

Lemma effect_well_formed (db db' : Db) (o : Outcome) :
  effect bootYear db db' o →
  all_well_formed bootYear (docs db) → all_well_formed bootYear (docs db').
Proof.
  intros [[->|[_ [(k & m & Hm & ->)|(k & ->)]]] _] Hall; [done|..].
  - intros id x [[<- <-]|[_ Hx]]%lookup_insert_Some; [by apply Hm|by apply (Hall id)].
  - intros id x [_ Hx]%lookup_delete_Some. by apply (Hall id).
Qed.

Lemma effect_frame (db db' : Db) (o : Outcome) :
  effect bootYear db db' o →
  (∃ k, ∀ k', k' ≠ k → docs db' !! k' = docs db !! k')
  ∧ (calls db' = calls db ∨ ∃ c, calls db' = (calls db ++ [c])%list)
  ∧ (docs db' ≠ docs db → succeeded o).
Proof.
  intros [[Hd|[Hs [(k & m & _ & Hd)|(k & Hd)]]] Hc]; (split; [|split; [done|]]).
  - exists "". intros k' _. by rewrite Hd.
  - done.
  - exists k. intros k' Hk. rewrite Hd. by apply lookup_insert_ne.
  - done.
  - exists k. intros k' Hk. rewrite Hd. by apply lookup_delete_ne.
  - done.
Qed.

(** X13.  Both applications keep the stored movies well formed: when every
    movie of the collection has a title and a director that are not empty, a
    release year between 1888 and the year the validators were built in, a
    genre of the list and an image that is absent or passes the URL test,
    the same holds after any request whose body holds no field besides the
    five paths of the schema (each a JSON scalar), whatever its method, its
    path, the values of the fields and the state of the database. *)
Theorem collection_stays_well_formed (env : Env) (req : Request) (db : Db) :
  all_well_formed bootYear (docs db) →
  only_schema_paths (Express.body req) →
  all_well_formed bootYear (docs (VariantA.app bootYear env req db).2)
  ∧ all_well_formed bootYear (docs (VariantB.app bootYear env req db).2).
Proof.
  intros Hall _. split; eapply effect_well_formed; try done.
  - apply app_A_keeps.
  - apply app_B_keeps.
Qed.

(** X14.  One request of either application changes at most one record of
    the collection and makes at most one call of the model; and the
    collection changes only when the request is answered 200 or 201. *)
Theorem one_request_one_record (env : Env) (req : Request) (db : Db) :
  ((∃ k, ∀ k', k' ≠ k →
      docs (VariantA.app bootYear env req db).2 !! k' = docs db !! k')
   ∧ (calls (VariantA.app bootYear env req db).2 = calls db
      ∨ ∃ c, calls (VariantA.app bootYear env req db).2 = (calls db ++ [c])%list)
   ∧ (docs (VariantA.app bootYear env req db).2 ≠ docs db →
      succeeded (VariantA.app bootYear env req db).1))
  ∧ ((∃ k, ∀ k', k' ≠ k →
        docs (VariantB.app bootYear env req db).2 !! k' = docs db !! k')
     ∧ (calls (VariantB.app bootYear env req db).2 = calls db
        ∨ ∃ c, calls (VariantB.app bootYear env req db).2 = (calls db ++ [c])%list)
     ∧ (docs (VariantB.app bootYear env req db).2 ≠ docs db →
        succeeded (VariantB.app bootYear env req db).1)).
Proof.
  split; apply effect_frame.
  - apply app_A_keeps.
  - apply app_B_keeps.
Qed.

(** The handlers of variant B end with an answer or with a forwarded error. *)
Lemma stack_B_answers_or_forwards env req db :
  (∃ r, (dispatch (VariantB.stack bootYear) env req db).1 = Reply r)
  ∨ (∃ e, (dispatch (VariantB.stack bootYear) env req db).1 = Next e).
Proof.
  destruct (dispatch_cases (VariantB.stack bootYear) env req db)
    as [(l & req' & Hl & _ & ->)|[-> |(l & e & _ & _ & ->)]];
    [|left; by eexists|right; by eexists].
  unfold VariantB.stack, VariantB.routes in Hl. simpl in Hl.
  rewrite !elem_of_cons, elem_of_nil in Hl.
  destruct Hl as [->|[->|[->|[->|[->|[->|[->|[]]]]]]]]; simpl.
  - left; by eexists.
  - left; by eexists.
  - unfold VariantB.get_api_movies.
    destruct (VariantB.build_filter _); [|right; by eexists].
    destruct (find _ _ _) as [[?|?] ?]; [left|right]; by eexists.
  - unfold VariantB.post_api_movies.
    destruct (validationResult _ _ _); [|left; by eexists].
    destruct (save _ _ _) as [[[? ?]|?] ?]; [left|right]; by eexists.
  - unfold VariantB.put_api_movies_id.
    destruct (validationResult _ _ _); [|left; by eexists].
    destruct (findByIdAndUpdate _ _ _ _) as [[[[? ?]|]|?] ?]; [left|left|right]; by eexists.
  - unfold VariantB.delete_api_movies_id.
    destruct (findByIdAndDelete _ _ _) as [[[[? ?]|]|?] ?]; [left|left|right]; by eexists.
  - left; by eexists.
Qed.

(** X15.  Variant B answers every request: whatever the request and whatever
    fails in the database, the application ends with a response, never with a
    forwarded error left over or a rejected promise. *)
Theorem B_always_answers (env : Env) (req : Request) (db : Db) :
  ∃ r, (VariantB.app bootYear env req db).1 = Reply r.
Proof.
  unfold VariantB.app.
  destruct (stack_B_answers_or_forwards env req db) as [[r Hr]|[e He]];
    destruct (dispatch _ env req db) as [o db']; simpl in *; subst o; by eexists.
Qed.

Lemma takes_method (m pattern : string) (h : Handler) (req req' : Request) :
  takes (mkLayer (Verb m pattern) h) req = Takes req' → is_method m req = true.
Proof.
  unfold takes. simpl. destruct (match_path _ _); [|done].
  destruct (decode_params _ _); [|done]. by destruct (is_method m req).
Qed.

(** X16.  The promise of a handler of variant A is rejected in one case only:
    a POST whose payload passed validation and whose [save] threw, the
    handler having no [try] around it.  Every other request is answered, by
    a handler or by the framework.  In that case the model was called once
    and the collection is unchanged. *)
Theorem A_answers_but_a_failed_create (env : Env) (req : Request) (db : Db) :
  (∃ r, (VariantA.app bootYear env req db).1 = Reply r)
  ∨ (∃ e, VariantA.app bootYear env req db = (Rejected e, called CallSave db)
          ∧ is_method "POST" req = true
          ∧ valid bootYear (Express.body req)).
Proof.
  unfold VariantA.app, VariantA.on_error.
  destruct (dispatch_cases (VariantA.stack bootYear) env req db)
    as [(l & req' & Hl & Ht & ->)|[-> |(l & e & _ & _ & ->)]];
    [|left; by eexists..].
  unfold VariantA.stack in Hl. rewrite !elem_of_cons, elem_of_nil in Hl.
  destruct Hl as [->|[->|[->|[->|[->|[->|[]]]]]]]; simpl.
  - left; by eexists.
  - left; by eexists.
  - left. unfold VariantA.get_api_movies.
    destruct (VariantA.build_filter _); [|by eexists].
    destruct (find _ _ _) as [[?|?] ?]; by eexists.
  - pose proof (takes_method _ _ _ _ _ Ht) as Hm.
    destruct (takes_keeps _ _ _ Ht) as (Hb & _).
    unfold VariantA.post_api_movies.
    destruct (validationResult _ _ _) eqn:Hr; [|left; by eexists].
    apply post_validators_A_nil in Hr.
    destruct (save_effect bootYear env _ db Hr) as [(m & Hs & _)|(e & Hs)];
      rewrite Hs; [left; by eexists|].
    right. exists e. rewrite <- Hb. done.
  - left. unfold VariantA.put_api_movies_id.
    destruct (validationResult _ _ _); [|by eexists].
    destruct (findByIdAndUpdate _ _ _ _) as [[[[? ?]|]|?] ?]; by eexists.
  - left. unfold VariantA.delete_api_movies_id.
    destruct (findByIdAndDelete _ _ _) as [[[[? ?]|]|?] ?]; by eexists.
Qed.

End Applications.

(** ** Which handler takes a request *)

Section Routes.
Import Mongoose Express Validator Props Data.
Context `{Platform}.
Variable bootYear : Z.

Lemma split_slash_segment (cur s : string) :
  no_slash s = true → split_slash cur s = [String.rev_app cur s].
Proof.
  revert cur. induction s as [|c s IH]; intros cur Hs; [done|].
  simpl in Hs. apply andb_true_iff in Hs as [Hc Hs].
  specialize (IH (String c cur) Hs).
  destruct c as [[] [] [] [] [] [] [] []]; try done.
Qed.

Lemma segments_of_record (id : string) :
  no_slash id = true → id ≠ "" →
  segments ("/api/movies/" +:+ id) = Some ["api"; "movies"; id].
Proof.
  intros Hs Hne. unfold segments.
  assert (split_slash "" ("/api/movies/" +:+ id)
          = "" :: "api" :: "movies" :: split_slash "" id) as -> by reflexivity.
  rewrite split_slash_segment by done. simpl.
  destruct id as [|c r]; [done|]. reflexivity.
Qed.

Lemma takes_mount (mount : string) (h : Handler) (req : Request) :
  takes (mkLayer (UseAt mount) h) req
  = if match_mount mount (path req) then Takes req else Passes.
Proof. reflexivity. Qed.

Lemma takes_verb (m pattern : string) (h : Handler) (req : Request) :
  takes (mkLayer (Verb m pattern) h) req
  = match match_path pattern (path req) with
    | None => Passes
    | Some bound =>
        match decode_params ∅ bound with
        | Throw e => Fails e
        | Ok ps => if is_method m req then Takes (with_params ps req) else Passes
        end
    end.
Proof. reflexivity. Qed.

(** The handlers of variant A forward no error. *)
Lemma on_error_A (r : Outcome * Db) :
  (∀ e, r.1 ≠ Next e) → VariantA.on_error r = r.
Proof. destruct r as [[?|e|?] ?]; simpl; [done| |done]. intros Hn. by destruct (Hn e). Qed.

Lemma get_A_answers env req db e : (VariantA.get_api_movies env req db).1 ≠ Next e.
Proof.
  unfold VariantA.get_api_movies.
  destruct (VariantA.build_filter _); [|done]. by destruct (find _ _ _) as [[?|?] ?].
Qed.

Lemma post_A_answers env req db e : (VariantA.post_api_movies bootYear env req db).1 ≠ Next e.
Proof.
  unfold VariantA.post_api_movies.
  destruct (validationResult _ _ _); [|done]. by destruct (save _ _ _) as [[[? ?]|?] ?].
Qed.

Lemma put_A_answers env req db e : (VariantA.put_api_movies_id bootYear env req db).1 ≠ Next e.
Proof.
  unfold VariantA.put_api_movies_id.
  destruct (validationResult _ _ _); [|done].
  by destruct (findByIdAndUpdate _ _ _ _) as [[[[? ?]|]|?] ?].
Qed.

Lemma delete_A_answers env req db e : (VariantA.delete_api_movies_id env req db).1 ≠ Next e.
Proof.
  unfold VariantA.delete_api_movies_id.
  by destruct (findByIdAndDelete _ _ _) as [[[[? ?]|]|?] ?].
Qed.

(** The requests on the paths of the file, method by method. *)
Ltac closed_matches :=
  repeat match goal with
  | |- context [match_mount ?a ?b] =>
      let v := eval vm_compute in (match_mount a b) in change (match_mount a b) with v
  | |- context [match_path ?a ?b] =>
      let v := eval vm_compute in (match_path a b) in change (match_path a b) with v
  end.

Ltac route Hp Hm :=
  unfold VariantA.app, VariantB.app, VariantA.stack, VariantB.stack, VariantB.routes;
  cbn [dispatch app]; rewrite !takes_mount, !takes_verb, ?Hp; closed_matches;
  cbn [decode_params]; unfold is_method; rewrite ?Hm; simpl.

(** X17.  The requests on [/api/movies]: GET and HEAD run the listing, POST
    runs the create; any other method finds no route, which the framework
    answers in variant A and the 404 handler in variant B; forwarded errors
    of variant B pass through its error middleware. *)
Theorem routes_on_the_collection (env : Env) (req : Request) (db : Db) :
  path req = "/api/movies" →
  (method req = "GET" ∨ method req = "HEAD" →
   VariantA.app bootYear env req db = VariantA.get_api_movies env req db
   ∧ VariantB.app bootYear env req db
     = VariantB.on_error (VariantB.get_api_movies env req db))
  ∧ (method req = "POST" →
     VariantA.app bootYear env req db = VariantA.post_api_movies bootYear env req db
     ∧ VariantB.app bootYear env req db
       = VariantB.on_error (VariantB.post_api_movies bootYear env req db))
  ∧ (method req = "PUT" ∨ method req = "DELETE" ∨ method req = "PATCH" →
     VariantA.app bootYear env req db = (Reply (mkResponse 404 Builtin), db)
     ∧ VariantB.app bootYear env req db = VariantB.not_found env req db).
Proof.
  intros Hp. split; [|split].
  - intros [Hm|Hm]; route Hp Hm;
      (split; [|done]); rewrite on_error_A by apply get_A_answers; done.
  - intros Hm; route Hp Hm.
    split; [|done]. rewrite on_error_A by apply post_A_answers. done.
  - intros [Hm|[Hm|Hm]]; route Hp Hm; done.
Qed.

(** X18.  The requests on [/api/movies/<segment>], the segment being not
    empty.  The router percent-decodes the segment.  When that gives [id]:
    PUT runs the update and DELETE the delete with [id] in [req.params.id],
    and there is no route that reads one record, so GET finds no route.  When
    the segment cannot be decoded, no handler runs, whatever the method:
    variant A answers 400 with the page of the framework and variant B 500
    through its error middleware.  A segment without a percent sign is handed
    on as it is written. *)
Theorem routes_on_a_record (env : Env) (req : Request) (db : Db) (segment : string) :
  path req = "/api/movies/" +:+ segment → no_slash segment = true → segment ≠ "" →
  (∀ id, decodeURIComponent segment = Ok id →
     (method req = "PUT" →
      VariantA.app bootYear env req db
        = VariantA.put_api_movies_id bootYear env (with_params (<["id" := id]> ∅) req) db
      ∧ VariantB.app bootYear env req db
        = VariantB.on_error
            (VariantB.put_api_movies_id bootYear env (with_params (<["id" := id]> ∅) req) db))
     ∧ (method req = "DELETE" →
        VariantA.app bootYear env req db
          = VariantA.delete_api_movies_id env (with_params (<["id" := id]> ∅) req) db
        ∧ VariantB.app bootYear env req db
          = VariantB.on_error
              (VariantB.delete_api_movies_id env (with_params (<["id" := id]> ∅) req) db))
     ∧ (method req = "GET" ∨ method req = "HEAD" ∨ method req = "POST" →
        VariantA.app bootYear env req db = (Reply (mkResponse 404 Builtin), db)
        ∧ VariantB.app bootYear env req db = VariantB.not_found env req db)
     ∧ params (with_params (<["id" := id]> ∅) req) !!! "id" = id)
  ∧ (∀ e, decodeURIComponent segment = Throw e →
       VariantA.app bootYear env req db = (Reply (mkResponse 400 Builtin), db)
       ∧ VariantB.app bootYear env req db
         = (Reply (mkResponse 500 (Object [
              ("error", "Server Error");
              ("message", "Failed to decode param '" +:+ segment +:+ "'")])), db))
  ∧ (JS.has_percent segment = false → decodeURIComponent segment = Ok segment).
Proof.
  intros Hp Hs Hne.
  assert (Hseg := segments_of_record segment Hs Hne).
  assert (Hmatch : match_path "/api/movies/:id" (path req) = Some [("id", segment)]).
  { unfold match_path. rewrite Hp, Hseg.
    destruct segment as [|c r]; [done|]. reflexivity. }
  assert (Hmount : match_mount "/api-docs" (path req) = false).
  { unfold match_mount. by rewrite Hp, Hseg. }
  assert (Hlist : match_path "/api/movies" (path req) = None).
  { unfold match_path. by rewrite Hp, Hseg. }
  assert (Hhome : match_path "/" (path req) = None).
  { unfold match_path. by rewrite Hp, Hseg. }
  split; [|split].
  - intros id Hid.
    assert (Hdec : decode_params ∅ [("id", segment)] = Ok (<["id" := id]> ∅)).
    { simpl. unfold decode_param. by rewrite Hid. }
    split; [|split; [|split]].
    + intros Hm. unfold VariantA.app, VariantB.app, VariantA.stack, VariantB.stack,
        VariantB.routes. cbn [dispatch app].
      rewrite !takes_mount, !takes_verb, Hmount, Hhome, Hlist, Hmatch, Hdec.
      unfold is_method. rewrite Hm. simpl.
      split; [|done]. by rewrite on_error_A by apply put_A_answers.
    + intros Hm. unfold VariantA.app, VariantB.app, VariantA.stack, VariantB.stack,
        VariantB.routes. cbn [dispatch app].
      rewrite !takes_mount, !takes_verb, Hmount, Hhome, Hlist, Hmatch, Hdec.
      unfold is_method. rewrite Hm. simpl.
      split; [|done]. by rewrite on_error_A by apply delete_A_answers.
    + intros [Hm|[Hm|Hm]]; unfold VariantA.app, VariantB.app, VariantA.stack,
        VariantB.stack, VariantB.routes; cbn [dispatch app];
        rewrite !takes_mount, !takes_verb, Hmount, Hhome, Hlist, Hmatch, Hdec;
        unfold is_method; rewrite Hm; done.
    + simpl. unfold lookup_total, map_lookup_total. by rewrite lookup_insert_eq.
  - intros e He.
    assert (Hdec : decode_params ∅ [("id", segment)]
                   = Throw (mkError ("Failed to decode param '" +:+ segment +:+ "'") (stack e))).
    { simpl. unfold decode_param. by rewrite He. }
    unfold VariantA.app, VariantB.app, VariantA.stack, VariantB.stack, VariantB.routes.
    cbn [dispatch app].
    rewrite !takes_mount, !takes_verb, Hmount, Hhome, Hlist, Hmatch, Hdec.
    split; [done|]. simpl.
    by destruct segment.
  - apply decodeURIComponent_plain.
Qed.

End Routes.

(** ** Listing: reads, and the release year as a number *)

Section ListingMore.
Import Mongoose Express Validator Props Data.
Context `{Platform}.

Lemma is_digit_radix (c : ascii) :
  JS.is_digit c = true →
  JS.radix_digit 10 c = Some (JS.digit_value c) ∧ JS.is_space c = false
  ∧ c ≠ "-"%char ∧ c ≠ "+"%char ∧ c ≠ "x"%char ∧ c ≠ "X"%char.
Proof. destruct c as [[] [] [] [] [] [] [] []]; try discriminate; by vm_compute. Qed.

Lemma prefix_value_digits (d rest : string) (a : Z) :
  JS.all_digits d = true → stops rest →
  JS.prefix_value 10 (Some a) (d +:+ rest) = Some (JS.digits_value a d).
Proof.
  revert a. induction d as [|c d IH]; intros a Hd Hrest.
  - destruct rest as [|c r]; [done|]. destruct Hrest as (Hc & _).
    change ("" +:+ String c r) with (String c r). simpl. by rewrite Hc.
  - simpl in Hd. apply andb_true_iff in Hd as [Hc Hd].
    destruct (is_digit_radix c Hc) as (Hr & _).
    change (String c d +:+ rest) with (String c (d +:+ rest)).
    simpl. rewrite Hr. simpl. by apply IH.
Qed.

Lemma second_stops (d rest : string) :
  JS.all_digits d = true → stops rest →
  match d +:+ rest with
  | EmptyString => True
  | String c _ => c ≠ "x"%char ∧ c ≠ "X"%char
  end.
Proof.
  intros Hd Hrest. destruct d as [|c d].
  - change ("" +:+ rest) with rest. destruct rest; [done|]. by destruct Hrest as (_ & ? & ?).
  - change (String c d +:+ rest) with (String c (d +:+ rest)).
    simpl in Hd. apply andb_true_iff in Hd as [Hc _].
    by destruct (is_digit_radix c Hc) as (_ & _ & _ & _ & ? & ?).
Qed.

Lemma parseInt_unsigned (c : ascii) (s : string) :
  JS.is_digit c = true →
  match s with EmptyString => True | String c2 _ => c2 ≠ "x"%char ∧ c2 ≠ "X"%char end →
  JS.parseInt (String c s)
  = (λ n, JS.nearest (1 * n)) <$> JS.prefix_value 10 None (String c s)
  ∧ JS.parseInt (String "-" (String c s))
    = (λ n, JS.nearest (-1 * n)) <$> JS.prefix_value 10 None (String c s).
Proof.
  intros Hc Hs. unfold JS.parseInt.
  destruct c as [[] [] [] [] [] [] [] []]; try discriminate Hc; try done.
  destruct s as [|c2 s]; [done|]. destruct Hs as [Hx HX].
  destruct c2 as [[] [] [] [] [] [] [] []]; done.
Qed.

(** [parseInt] reads the decimal numeral of [n], followed or not by other
    text, as the Number nearest to [n]. *)
Lemma parseInt_pretty (n : Z) (rest : string) :
  stops rest → JS.parseInt (pretty n +:+ rest) = Some (JS.nearest n).
Proof.
  intros Hrest.
  assert (Hdigits : ∀ d, JS.all_digits d = true → d ≠ "" →
            JS.parseInt (d +:+ rest) = Some (JS.nearest (JS.digits_value 0 d))
            ∧ JS.parseInt (String "-" (d +:+ rest))
              = Some (JS.nearest (- JS.digits_value 0 d))).
  { intros [|c d] Hd Hne; [done|].
    change (String c d +:+ rest) with (String c (d +:+ rest)).
    simpl in Hd. apply andb_true_iff in Hd as [Hc Hd].
    destruct (parseInt_unsigned c (d +:+ rest) Hc (second_stops d rest Hd Hrest)) as [-> ->].
    destruct (is_digit_radix c Hc) as (Hr & _).
    assert (JS.prefix_value 10 None (String c (d +:+ rest))
            = Some (JS.digits_value 0 (String c d))) as ->.
    { simpl. rewrite Hr. simpl. by rewrite prefix_value_digits. }
    cbn [fmap option_fmap option_map]. split; do 2 f_equal; lia. }
  destruct n as [|p|p].
  - change (pretty 0) with "0". by destruct (Hdigits "0") as [-> _].
  - destruct (pretty_positive_digits p) as (Ha & Hne & Hv).
    change (pretty (Z.pos p)) with (pretty p).
    destruct (Hdigits (pretty p) Ha Hne) as [-> _]. by rewrite Hv.
  - destruct (pretty_positive_digits p) as (Ha & Hne & Hv).
    change (pretty (Z.neg p) +:+ rest) with (String "-" (pretty p +:+ rest)).
    destruct (Hdigits (pretty p) Ha Hne) as [_ ->]. by rewrite Hv.
Qed.

Lemma found_NoDup (f : Filter) (docs : gmap string Movie) :
  NoDup (List.filter (λ d, matches f d.2) (map_to_list docs)).
Proof.
  induction (NoDup_map_to_list docs) as [|d l Hd _ IH]; simpl; [constructor|].
  destruct (matches f d.2); [|done]. constructor; [|done].
  rewrite list_elem_of_In, filter_In, <- list_elem_of_In. tauto.
Qed.

(** X19.  A listing is a read.  Whatever the request and the state of the
    database, both variants leave the collection as it was; a listing that
    is answered 200 returns stored records, each once; and the two variants
    answer 200 on the same requests, with the same records. *)
Theorem listing_is_a_read (env : Env) (req : Request) (db : Db) :
  docs (VariantA.get_api_movies env req db).2 = docs db
  ∧ docs (VariantB.get_api_movies env req db).2 = docs db
  ∧ (∀ movies,
       (VariantA.get_api_movies env req db).1 = Reply (mkResponse 200 (Movies movies))
       ↔ (VariantB.get_api_movies env req db).1 = Reply (mkResponse 200 (Movies movies)))
  ∧ (∀ movies,
       (VariantA.get_api_movies env req db).1 = Reply (mkResponse 200 (Movies movies)) →
       NoDup movies ∧ ∀ id m, (id, m) ∈ movies → docs db !! id = Some m).
Proof.
  unfold VariantA.get_api_movies, VariantB.get_api_movies.
  change (VariantB.build_filter (query req)) with (VariantA.build_filter (query req)).
  assert (Hok : ∀ l : list (string * Movie),
            (∀ movies, Reply (json (Movies l)) = Reply (mkResponse 200 (Movies movies)) →
               NoDup l → (∀ id m, (id, m) ∈ l → docs db !! id = Some m) →
               NoDup movies ∧ ∀ id m, (id, m) ∈ movies → docs db !! id = Some m))
    by (by intros l movies [= <-]).
  destruct (VariantA.build_filter (query req)) as [f|e]; [|by repeat split].
  unfold find. destruct (f_releaseYear f) as [[n|]|] eqn:Hy;
    destruct (fault env) as [e|]; simpl; try by repeat split.
  - split; [done|]. split; [done|]. split; [done|]. intros movies Hm.
    apply (Hok _ movies Hm); [apply found_NoDup|].
    intros id m' Hin. by apply elem_of_found in Hin as [? _].
  - split; [done|]. split; [done|]. split; [done|]. intros movies Hm.
    apply (Hok _ movies Hm); [apply found_NoDup|].
    intros id m' Hin. by apply elem_of_found in Hin as [? _].
Qed.

(** X20.  A listing by release year alone or with a genre.  When the
    [releaseYear] parameter is the decimal numeral of [n], followed or not by
    text that starts with no digit, [parseInt] reads the Number nearest to
    [n], which is [n] itself below 2^53 in magnitude, and the listing returns
    exactly the stored movies whose release year is that Number (and whose
    genre is the [genre] parameter, when there is one). *)
Theorem listing_by_year (env : Env) (req : Request) (db : Db) (n : Z) (rest : string) :
  fault env = None →
  JS.truthy (query req !! "title") = None →
  query req !! "releaseYear" = Some (pretty n +:+ rest) → stops rest →
  JS.parseInt (pretty n +:+ rest) = Some (JS.nearest n)
  ∧ (Z.abs n < 2 ^ 53 → JS.nearest n = JS.Finite n)
  ∧ ∃ movies,
      VariantA.get_api_movies env req db
        = (Reply (mkResponse 200 (Movies movies)), called CallFind db)
      ∧ VariantB.get_api_movies env req db
        = (Reply (mkResponse 200 (Movies movies)), called CallFind db)
      ∧ ∀ id m, (id, m) ∈ movies
          ↔ docs db !! id = Some m
            ∧ (∃ k, JS.nearest n = JS.Finite k ∧ releaseYear m = Some k)
            ∧ genre_matches (query req) m.
Proof.
  intros Hf Ht Hy Hrest.
  split; [by apply parseInt_pretty|]. split; [apply nearest_safe|].
  assert (Htr : JS.truthy (query req !! "releaseYear") = Some (pretty n +:+ rest)).
  { rewrite Hy. simpl.
    destruct (pretty n +:+ rest) eqn:Hs; [|done].
    pose proof (parseInt_pretty n rest Hrest) as Hp. by rewrite Hs in Hp. }
  assert (Hrun : runnable (query req)).
  { unfold runnable. rewrite Ht, Htr. split; [done|].
    exists (JS.nearest n). by apply parseInt_pretty. }
  destruct (build_filter_runnable (query req) Hrun) as (f & Hb & Hn & Hm).
  exists (List.filter (λ d, matches f d.2) (map_to_list (docs db))).
  unfold VariantA.get_api_movies, VariantB.get_api_movies.
  change (VariantB.build_filter (query req)) with (VariantA.build_filter (query req)).
  rewrite Hb, find_answers by done.
  split; [done|]. split; [done|].
  intros id m. rewrite elem_of_found, Hm.
  unfold title_matches, releaseYear_matches. rewrite Ht, Htr, parseInt_pretty by done.
  split.
  - intros (Hd & _ & (k & [= Hk] & Hy') & Hg). eauto 10.
  - intros (Hd & (k & Hk & Hy') & Hg). split; [done|]. split; [done|]. split; [|done].
    exists k. by rewrite Hk.
Qed.

End ListingMore.

(** ** The request log *)

Section Logs.
Import Mongoose Express Validator Props Data Logging.
Context `{Platform}.
Variable bootYear : Z.





End Logs.

(** ** Scenarios of the two applications *)

Section MoreScenarios.
Import Mongoose Express Validator Props Data Logging.

Lemma arrival_is_valid : valid 2025 (Express.body Cases.create_movie).
Proof. repeat split; try reflexivity. by left. Qed.

Lemma arrival_only_schema_paths : only_schema_paths (Express.body Cases.create_movie).
Proof.
  intros k [v Hv]. apply elem_of_list_to_map_2 in Hv.
  unfold Sample.arrival in Hv. rewrite !elem_of_cons, elem_of_nil in Hv.
  unfold schema_paths. rewrite !elem_of_cons.
  destruct Hv as [[= -> _]|[[= -> _]|[[= -> _]|[[= -> _]|[]]]]]; auto 10.
Qed.

Lemma two_dunes_well_formed : all_well_formed 2025 (docs Sample.two_dunes).
Proof.
  intros id m. unfold Sample.two_dunes, Sample.collection. simpl.
  rewrite !lookup_insert_Some, lookup_empty.
  intros [[_ <-]|[_ [[_ <-]|[_ [=]]]]]; unfold well_formed; simpl;
    (split; [by eexists|]); (split; [by eexists|]);
    (split; [eexists; split; [reflexivity|lia]|]);
    (split; [eexists; split; [reflexivity|unfold genres; rewrite !elem_of_cons; auto 10]|]);
    done.
Qed.


(** A parameter with a malformed escape, whatever the method: variant A
    answers 400 and variant B 500, and the id with an escaped digit reaches
    the delete handler decoded. *)
Lemma escapes_in_the_id :
  (VariantA.app 2025 (Sample.quiet 2025) Cases.bad_escape Sample.two_dunes).1
  = Reply (mkResponse 400 Builtin)
  ∧ (VariantB.app 2025 (Sample.quiet 2025) Cases.bad_escape Sample.two_dunes).1
    = Reply (mkResponse 500 (Object [("error", "Server Error");
                                     ("message", "Failed to decode param '%zz'")]))
  ∧ (VariantB.app 2025 (Sample.quiet 2025)
       (Cases.delete_at "%30123456789abcdef01234567") Sample.two_dunes).1
    = Reply (mkResponse 200 (Object [("message", "Movie deleted")])).
Proof. repeat split; by vm_compute. Qed.

(** A request whose entity is no JSON: variant A answers it 400 and writes
    nothing; variant B answers it 500 and writes the line of the error, not
    the line of the request. *)
Lemma entity_that_is_no_json :
  serve_A 2025 Cases.disk Cases.not_json (Sample.quiet 2025) Cases.create_movie
    Sample.two_dunes Cases.files
  = (Reply (mkResponse 400 Builtin), Sample.two_dunes, Cases.files)
  ∧ (serve_B 2025 Cases.disk Cases.not_json (Sample.quiet 2025) Cases.create_movie
       Sample.two_dunes Cases.files).1
    = (Reply (mkResponse 500 (Object [
         ("error", "Server Error");
         ("message", "Unexpected token } in JSON at position 1")])), Sample.two_dunes)
  ∧ length (log_txt (serve_B 2025 Cases.disk Cases.not_json (Sample.quiet 2025)
              Cases.create_movie Sample.two_dunes Cases.files).2) = 1%nat.
Proof. repeat split; by vm_compute. Qed.



(** X4 at the movie of 2016. *)
Lemma create_then_delete_witness :
  (valid 2025 (Express.body Cases.create_movie))
  ∧ (only_schema_paths (Express.body Cases.create_movie))
  ∧ (fault (Sample.quiet 2025) = None)
  ∧ (docs Sample.two_dunes !! newId (Sample.quiet 2025) = None)
  ∧ (fault (Sample.quiet 2025) = None)
  ∧ (castObjectId (params (Cases.delete_movie Cases.new_id) !!! "id") = Ok (newId (Sample.quiet 2025)))
  ∧ ((∃ r db1 db2,
     VariantA.post_api_movies 2025 (Sample.quiet 2025) Cases.create_movie Sample.two_dunes = (Reply r, db1)
     ∧ status r = 201
     ∧ VariantA.delete_api_movies_id (Sample.quiet 2025) (Cases.delete_movie Cases.new_id) db1
       = (Reply (mkResponse 200 (Text "Movie deleted")), db2)
     ∧ docs db2 = docs Sample.two_dunes)
  ∧ (∃ r db1 db2,
       VariantB.post_api_movies 2025 (Sample.quiet 2025) Cases.create_movie Sample.two_dunes = (Reply r, db1)
       ∧ status r = 201
       ∧ VariantB.delete_api_movies_id (Sample.quiet 2025) (Cases.delete_movie Cases.new_id) db1
         = (Reply (mkResponse 200 (Object [("message", "Movie deleted")])), db2)
       ∧ docs db2 = docs Sample.two_dunes)).
Proof.
  assert (H1 : valid 2025 (Express.body Cases.create_movie)) by (exact arrival_is_valid).
  assert (H2 : only_schema_paths (Express.body Cases.create_movie)) by (exact arrival_only_schema_paths).
  assert (H3 : fault (Sample.quiet 2025) = None) by (reflexivity).
  assert (H4 : docs Sample.two_dunes !! newId (Sample.quiet 2025) = None) by (reflexivity).
  assert (H5 : fault (Sample.quiet 2025) = None) by (reflexivity).
  assert (H6 : castObjectId (params (Cases.delete_movie Cases.new_id) !!! "id") = Ok (newId (Sample.quiet 2025))) by (reflexivity).
  exact (conj H1 (conj H2 (conj H3 (conj H4 (conj H5 (conj H6 (create_then_delete 2025 (Sample.quiet 2025) (Sample.quiet 2025) Cases.create_movie (Cases.delete_movie Cases.new_id) Sample.two_dunes H1 H2 H3 H4 H5 H6))))))).
Defined.




(** X8 at the first stored movie. *)
Lemma delete_then_list_witness :
  (fault (Sample.quiet 2025) = None)
  ∧ (fault (Sample.quiet 2025) = None)
  ∧ (castObjectId (params (Cases.delete_movie Cases.first_id) !!! "id") = Ok Cases.first_id)
  ∧ (docs Sample.two_dunes !! Cases.first_id = Some Sample.dune_2021)
  ∧ (JS.truthy (query Cases.list_movies !! "title") = None)
  ∧ (JS.truthy (query Cases.list_movies !! "releaseYear") = None)
  ∧ (JS.truthy (query Cases.list_movies !! "genre") = None)
  ∧ ((∃ db1 movies,
     VariantA.delete_api_movies_id (Sample.quiet 2025) (Cases.delete_movie Cases.first_id) Sample.two_dunes
       = (Reply (mkResponse 200 (Text "Movie deleted")), db1)
     ∧ VariantA.get_api_movies (Sample.quiet 2025) Cases.list_movies db1
       = (Reply (mkResponse 200 (Movies movies)), called CallFind db1)
     ∧ ∀ id x, (id, x) ∈ movies ↔ id ≠ Cases.first_id ∧ docs Sample.two_dunes !! id = Some x)
  ∧ (∃ db1 movies,
       VariantB.delete_api_movies_id (Sample.quiet 2025) (Cases.delete_movie Cases.first_id) Sample.two_dunes
         = (Reply (mkResponse 200 (Object [("message", "Movie deleted")])), db1)
       ∧ VariantB.get_api_movies (Sample.quiet 2025) Cases.list_movies db1
         = (Reply (mkResponse 200 (Movies movies)), called CallFind db1)
       ∧ ∀ id x, (id, x) ∈ movies ↔ id ≠ Cases.first_id ∧ docs Sample.two_dunes !! id = Some x)).
Proof.
  assert (H1 : fault (Sample.quiet 2025) = None) by (reflexivity).
  assert (H2 : fault (Sample.quiet 2025) = None) by (reflexivity).
  assert (H3 : castObjectId (params (Cases.delete_movie Cases.first_id) !!! "id") = Ok Cases.first_id) by (reflexivity).
  assert (H4 : docs Sample.two_dunes !! Cases.first_id = Some Sample.dune_2021) by (reflexivity).
  assert (H5 : JS.truthy (query Cases.list_movies !! "title") = None) by (reflexivity).
  assert (H6 : JS.truthy (query Cases.list_movies !! "releaseYear") = None) by (reflexivity).
  assert (H7 : JS.truthy (query Cases.list_movies !! "genre") = None) by (reflexivity).
  exact (conj H1 (conj H2 (conj H3 (conj H4 (conj H5 (conj H6 (conj H7 (delete_then_list (Sample.quiet 2025) (Sample.quiet 2025) (Cases.delete_movie Cases.first_id) Cases.list_movies Sample.two_dunes Cases.first_id Sample.dune_2021 H1 H2 H3 H4 H5 H6 H7)))))))).
Defined.

(** X9 at an id no stored movie has. *)
Lemma delete_without_a_record_witness :
  (castObjectId (params (Cases.delete_movie Cases.new_id) !!! "id") = Ok Cases.new_id)
  ∧ ((fault (Sample.quiet 2025) = None → docs Sample.two_dunes !! Cases.new_id = None →
   VariantA.delete_api_movies_id (Sample.quiet 2025) (Cases.delete_movie Cases.new_id) Sample.two_dunes
     = (Reply (mkResponse 404 (Text "Movie not found")), called CallFindByIdAndDelete Sample.two_dunes)
   ∧ VariantB.delete_api_movies_id (Sample.quiet 2025) (Cases.delete_movie Cases.new_id) Sample.two_dunes
     = (Reply (mkResponse 404 (Object [("error", "Movie not found")])),
        called CallFindByIdAndDelete Sample.two_dunes))
  ∧ (∀ e, fault (Sample.quiet 2025) = Some e →
       VariantA.delete_api_movies_id (Sample.quiet 2025) (Cases.delete_movie Cases.new_id) Sample.two_dunes
         = (Reply (mkResponse 400 (Text "Invalid ID")), called CallFindByIdAndDelete Sample.two_dunes)
       ∧ VariantB.on_error (VariantB.delete_api_movies_id (Sample.quiet 2025) (Cases.delete_movie Cases.new_id) Sample.two_dunes)
         = (Reply (mkResponse 500 (Object [
              ("error", "Server Error");
              ("message", if String.eqb (message e) "" then "Something went wrong"
                          else message e)])),
            called CallFindByIdAndDelete Sample.two_dunes))).
Proof.
  assert (H1 : castObjectId (params (Cases.delete_movie Cases.new_id) !!! "id") = Ok Cases.new_id) by (reflexivity).
  exact (conj H1 (delete_without_a_record (Sample.quiet 2025) (Cases.delete_movie Cases.new_id) Sample.two_dunes Cases.new_id H1)).
Defined.

(** X10 at the create array of variant A and the movie of 2016. *)
Lemma violations_name_the_failing_fields_witness :
  ((VariantA.post_validators 2025) ∈ validator_arrays 2025)
  ∧ ((names "title" (validationResult isURL_test (VariantA.post_validators 2025) (Express.body Cases.create_movie))
   ↔ toString ((Express.body Cases.create_movie) !! "title") = ""
     ∨ ((VariantA.post_validators 2025) ∈ [VariantA.post_validators 2025; VariantA.put_validators 2025]
        ∧ check isURL_test (IsLength 1) (toString ((Express.body Cases.create_movie) !! "title")) = false))
  ∧ (names "director" (validationResult isURL_test (VariantA.post_validators 2025) (Express.body Cases.create_movie)) ↔ toString ((Express.body Cases.create_movie) !! "director") = "")
  ∧ (names "releaseYear" (validationResult isURL_test (VariantA.post_validators 2025) (Express.body Cases.create_movie))
     ↔ check isURL_test (IsInt 1888 2025) (toString ((Express.body Cases.create_movie) !! "releaseYear")) = false)
  ∧ (names "genre" (validationResult isURL_test (VariantA.post_validators 2025) (Express.body Cases.create_movie)) ↔ toString ((Express.body Cases.create_movie) !! "genre") ∉ genres)
  ∧ (names "image" (validationResult isURL_test (VariantA.post_validators 2025) (Express.body Cases.create_movie))
     ↔ ∃ v, (Express.body Cases.create_movie) !! "image" = Some v ∧ isURL_test (toString (Some v)) = false)
  ∧ (∀ e, e ∈ validationResult isURL_test (VariantA.post_validators 2025) (Express.body Cases.create_movie) →
       err_path e ∈ ["title"; "director"; "releaseYear"; "genre"; "image"]
       ∧ err_value e = (Express.body Cases.create_movie) !! err_path e)).
Proof.
  assert (H1 : (VariantA.post_validators 2025) ∈ validator_arrays 2025) by (by left).
  exact (conj H1 (violations_name_the_failing_fields 2025 (VariantA.post_validators 2025) (Express.body Cases.create_movie) H1)).
Defined.

(** X12 at the create handler of variant A. *)
Lemma validation_comes_first_witness :
  (((VariantA.post_api_movies 2025), (VariantA.post_validators 2025)) ∈ write_handlers 2025)
  ∧ ((valid 2025 (Express.body Cases.create_movie) →
   validationResult isURL_test (VariantA.post_validators 2025) (Express.body Cases.create_movie) = []
   ∧ ∃ c, calls ((VariantA.post_api_movies 2025) (Sample.quiet 2025) Cases.create_movie Sample.two_dunes).2 = (calls Sample.two_dunes ++ [c])%list)
  ∧ (¬ valid 2025 (Express.body Cases.create_movie) →
     validationResult isURL_test (VariantA.post_validators 2025) (Express.body Cases.create_movie) ≠ []
     ∧ (VariantA.post_api_movies 2025) (Sample.quiet 2025) Cases.create_movie Sample.two_dunes
       = (Reply (mkResponse 400
            (Errors (validationResult isURL_test (VariantA.post_validators 2025) (Express.body Cases.create_movie)))), Sample.two_dunes))).
Proof.
  assert (H1 : ((VariantA.post_api_movies 2025), (VariantA.post_validators 2025)) ∈ write_handlers 2025) by (by left).
  exact (conj H1 (validation_comes_first 2025 (VariantA.post_api_movies 2025) (VariantA.post_validators 2025) (Sample.quiet 2025) Cases.create_movie Sample.two_dunes H1)).
Defined.

(** X13 at a create on the two stored movies. *)
Lemma collection_stays_well_formed_witness :
  (all_well_formed 2025 (docs Sample.two_dunes))
  ∧ (only_schema_paths (Express.body Cases.create_movie))
  ∧ (all_well_formed 2025 (docs (VariantA.app 2025 (Sample.quiet 2025) Cases.create_movie Sample.two_dunes).2)
  ∧ all_well_formed 2025 (docs (VariantB.app 2025 (Sample.quiet 2025) Cases.create_movie Sample.two_dunes).2)).
Proof.
  assert (H1 : all_well_formed 2025 (docs Sample.two_dunes)) by (exact two_dunes_well_formed).
  assert (H2 : only_schema_paths (Express.body Cases.create_movie)) by (exact arrival_only_schema_paths).
  exact (conj H1 (conj H2 (collection_stays_well_formed 2025 (Sample.quiet 2025) Cases.create_movie Sample.two_dunes H1 H2))).
Defined.

(** X17 at a create. *)
Lemma routes_on_the_collection_witness :
  (path Cases.create_movie = "/api/movies")
  ∧ ((method Cases.create_movie = "GET" ∨ method Cases.create_movie = "HEAD" →
   VariantA.app 2025 (Sample.quiet 2025) Cases.create_movie Sample.two_dunes = VariantA.get_api_movies (Sample.quiet 2025) Cases.create_movie Sample.two_dunes
   ∧ VariantB.app 2025 (Sample.quiet 2025) Cases.create_movie Sample.two_dunes
     = VariantB.on_error (VariantB.get_api_movies (Sample.quiet 2025) Cases.create_movie Sample.two_dunes))
  ∧ (method Cases.create_movie = "POST" →
     VariantA.app 2025 (Sample.quiet 2025) Cases.create_movie Sample.two_dunes = VariantA.post_api_movies 2025 (Sample.quiet 2025) Cases.create_movie Sample.two_dunes
     ∧ VariantB.app 2025 (Sample.quiet 2025) Cases.create_movie Sample.two_dunes
       = VariantB.on_error (VariantB.post_api_movies 2025 (Sample.quiet 2025) Cases.create_movie Sample.two_dunes))
  ∧ (method Cases.create_movie = "PUT" ∨ method Cases.create_movie = "DELETE" ∨ method Cases.create_movie = "PATCH" →
     VariantA.app 2025 (Sample.quiet 2025) Cases.create_movie Sample.two_dunes = (Reply (mkResponse 404 Builtin), Sample.two_dunes)
     ∧ VariantB.app 2025 (Sample.quiet 2025) Cases.create_movie Sample.two_dunes = VariantB.not_found (Sample.quiet 2025) Cases.create_movie Sample.two_dunes)).
Proof.
  assert (H1 : path Cases.create_movie = "/api/movies") by (reflexivity).
  exact (conj H1 (routes_on_the_collection 2025 (Sample.quiet 2025) Cases.create_movie Sample.two_dunes H1)).
Defined.

(** X18 at the first stored movie. *)
Lemma routes_on_a_record_witness :
  (path (Cases.delete_at Cases.first_id) = "/api/movies/" +:+ Cases.first_id)
  ∧ (no_slash Cases.first_id = true)
  ∧ (Cases.first_id ≠ "")
  ∧ ((∀ id, decodeURIComponent Cases.first_id = Ok id →
     (method (Cases.delete_at Cases.first_id) = "PUT" →
      VariantA.app 2025 (Sample.quiet 2025) (Cases.delete_at Cases.first_id) Sample.two_dunes
        = VariantA.put_api_movies_id 2025 (Sample.quiet 2025) (with_params (<["id" := id]> ∅) (Cases.delete_at Cases.first_id)) Sample.two_dunes
      ∧ VariantB.app 2025 (Sample.quiet 2025) (Cases.delete_at Cases.first_id) Sample.two_dunes
        = VariantB.on_error
            (VariantB.put_api_movies_id 2025 (Sample.quiet 2025) (with_params (<["id" := id]> ∅) (Cases.delete_at Cases.first_id)) Sample.two_dunes))
     ∧ (method (Cases.delete_at Cases.first_id) = "DELETE" →
        VariantA.app 2025 (Sample.quiet 2025) (Cases.delete_at Cases.first_id) Sample.two_dunes
          = VariantA.delete_api_movies_id (Sample.quiet 2025) (with_params (<["id" := id]> ∅) (Cases.delete_at Cases.first_id)) Sample.two_dunes
        ∧ VariantB.app 2025 (Sample.quiet 2025) (Cases.delete_at Cases.first_id) Sample.two_dunes
          = VariantB.on_error
              (VariantB.delete_api_movies_id (Sample.quiet 2025) (with_params (<["id" := id]> ∅) (Cases.delete_at Cases.first_id)) Sample.two_dunes))
     ∧ (method (Cases.delete_at Cases.first_id) = "GET" ∨ method (Cases.delete_at Cases.first_id) = "HEAD" ∨ method (Cases.delete_at Cases.first_id) = "POST" →
        VariantA.app 2025 (Sample.quiet 2025) (Cases.delete_at Cases.first_id) Sample.two_dunes = (Reply (mkResponse 404 Builtin), Sample.two_dunes)
        ∧ VariantB.app 2025 (Sample.quiet 2025) (Cases.delete_at Cases.first_id) Sample.two_dunes = VariantB.not_found (Sample.quiet 2025) (Cases.delete_at Cases.first_id) Sample.two_dunes)
     ∧ params (with_params (<["id" := id]> ∅) (Cases.delete_at Cases.first_id)) !!! "id" = id)
  ∧ (∀ e, decodeURIComponent Cases.first_id = Throw e →
       VariantA.app 2025 (Sample.quiet 2025) (Cases.delete_at Cases.first_id) Sample.two_dunes = (Reply (mkResponse 400 Builtin), Sample.two_dunes)
       ∧ VariantB.app 2025 (Sample.quiet 2025) (Cases.delete_at Cases.first_id) Sample.two_dunes
         = (Reply (mkResponse 500 (Object [
              ("error", "Server Error");
              ("message", "Failed to decode param '" +:+ Cases.first_id +:+ "'")])), Sample.two_dunes))
  ∧ (JS.has_percent Cases.first_id = false → decodeURIComponent Cases.first_id = Ok Cases.first_id)).
Proof.
  assert (H1 : path (Cases.delete_at Cases.first_id) = "/api/movies/" +:+ Cases.first_id) by (reflexivity).
  assert (H2 : no_slash Cases.first_id = true) by (reflexivity).
  assert (H3 : Cases.first_id ≠ "") by (discriminate).
  exact (conj H1 (conj H2 (conj H3 (routes_on_a_record 2025 (Sample.quiet 2025) (Cases.delete_at Cases.first_id) Sample.two_dunes Cases.first_id H1 H2 H3)))).
Defined.

(** X20 at the parameter 1984abc. *)
Lemma listing_by_year_witness :
  (fault (Sample.quiet 2025) = None)
  ∧ (JS.truthy (query (Cases.list_year "1984abc") !! "title") = None)
  ∧ (query (Cases.list_year "1984abc") !! "releaseYear" = Some (pretty 1984 +:+ "abc"))
  ∧ (stops "abc")
  ∧ (JS.parseInt (pretty 1984 +:+ "abc") = Some (JS.nearest 1984)
  ∧ (Z.abs 1984 < 2 ^ 53 → JS.nearest 1984 = JS.Finite 1984)
  ∧ ∃ movies,
      VariantA.get_api_movies (Sample.quiet 2025) (Cases.list_year "1984abc") Sample.two_dunes
        = (Reply (mkResponse 200 (Movies movies)), called CallFind Sample.two_dunes)
      ∧ VariantB.get_api_movies (Sample.quiet 2025) (Cases.list_year "1984abc") Sample.two_dunes
        = (Reply (mkResponse 200 (Movies movies)), called CallFind Sample.two_dunes)
      ∧ ∀ id m, (id, m) ∈ movies
          ↔ docs Sample.two_dunes !! id = Some m
            ∧ (∃ k, JS.nearest 1984 = JS.Finite k ∧ releaseYear m = Some k)
            ∧ genre_matches (query (Cases.list_year "1984abc")) m).
Proof.
  assert (H1 : fault (Sample.quiet 2025) = None) by (reflexivity).
  assert (H2 : JS.truthy (query (Cases.list_year "1984abc") !! "title") = None) by (reflexivity).
  assert (H3 : query (Cases.list_year "1984abc") !! "releaseYear" = Some (pretty 1984 +:+ "abc")) by (reflexivity).
  assert (H4 : stops "abc") by (by vm_compute).
  exact (conj H1 (conj H2 (conj H3 (conj H4 (listing_by_year (Sample.quiet 2025) (Cases.list_year "1984abc") Sample.two_dunes 1984 "abc" H1 H2 H3 H4))))).
Defined.



End MoreScenarios.
